(** * Used-guitar price data: scraper and cleaning stage

    A shallow embedding of [scrape.py] and [transform.py].  Titles, links
    and displayed prices are [string]s (one [ascii] per character);
    Python exceptions are the [Raise] results of an error monad; a pandas
    frame is the list of its rows, each carrying its index label. *)

From Stdlib Require Import String Ascii List ZArith Lia Bool Arith PeanoNat.
From Stdlib Require Import SpecFloat Sorted.
Import ListNotations.

Local Open Scope list_scope.
Local Open Scope string_scope.

(* ------------------------------------------------------------------ *)
(** ** Python values that can fail *)

Inductive exn : Type :=
| ValueError
| IndexError
| NoSuchElementException.

Inductive result (A : Type) : Type :=
| Ok (a : A)
| Raise (e : exn).

Arguments Ok {A} a.
Arguments Raise {A} e.

Definition bind {A B : Type} (m : result A) (k : A -> result B) : result B :=
  match m with
  | Ok a => k a
  | Raise e => Raise e
  end.

Notation "x <- m ;; k" := (bind m (fun x => k))
  (at level 61, m at next level, right associativity).

(** A list comprehension or [apply] whose body may raise: the first
    failing element aborts the whole traversal. *)
Fixpoint mapM {A B : Type} (f : A -> result B) (l : list A) : result (list B) :=
  match l with
  | [] => Ok []
  | a :: l' => b <- f a ;; bs <- mapM f l' ;; Ok (b :: bs)
  end.

(* ------------------------------------------------------------------ *)
(** ** Strings *)

Module Str.

(** [s.startswith(p)] *)
Fixpoint startswith (p s : string) : bool :=
  match p with
  | EmptyString => true
  | String a p' =>
      match s with
      | EmptyString => false
      | String b s' => Ascii.eqb a b && startswith p' s'
      end
  end.

(** [sub in s] *)
Fixpoint contains (sub s : string) : bool :=
  startswith sub s ||
  match s with
  | EmptyString => false
  | String _ s' => contains sub s'
  end.

(** [s.replace(c, '')] for a one-character [c] *)
Fixpoint remove_char (c : ascii) (s : string) : string :=
  match s with
  | EmptyString => EmptyString
  | String a s' => if Ascii.eqb a c then remove_char c s' else String a (remove_char c s')
  end.

(** [s[1:]] *)
Definition drop_first (s : string) : string :=
  match s with
  | EmptyString => EmptyString
  | String _ s' => s'
  end.

(** Whitespace as [str.split] sees it ([str.isspace]), for characters
    below 256. *)
Definition is_space (c : ascii) : bool :=
  let n := nat_of_ascii c in
  (((9 <=? n) && (n <=? 13)) || ((28 <=? n) && (n <=? 32)) || (n =? 133) || (n =? 160))%nat.

Fixpoint lstrip (s : string) : string :=
  match s with
  | EmptyString => EmptyString
  | String c s' => if is_space c then lstrip s' else s
  end.

(** The characters up to the first whitespace. *)
Fixpoint take_token (s : string) : string :=
  match s with
  | EmptyString => EmptyString
  | String c s' => if is_space c then EmptyString else String c (take_token s')
  end.

(** [s.split()[0]]: the first whitespace-delimited token; [IndexError]
    when the string holds no token. *)
Definition first_token (s : string) : result string :=
  match lstrip s with
  | EmptyString => Raise IndexError
  | t => Ok (take_token t)
  end.

(** [a] occurs in [s] as a contiguous piece. *)
Definition Occurs (a s : string) : Prop :=
  exists pre post, s = pre ++ a ++ post.

End Str.

(* ------------------------------------------------------------------ *)
(** ** The regular expressions of [get_model_year]

    Every pattern of the source is a sequence of bracketed character
    classes, each a set of literal characters and ranges. *)

Module Re.

Inductive item : Type :=
| Chr (c : ascii)
| Rng (lo hi : ascii).

Definition cclass := list item.
Definition regex := list cclass.

Definition item_matches (it : item) (c : ascii) : bool :=
  match it with
  | Chr a => Ascii.eqb a c
  | Rng lo hi => ((nat_of_ascii lo <=? nat_of_ascii c) && (nat_of_ascii c <=? nat_of_ascii hi))%nat
  end.

Definition class_matches (cls : cclass) (c : ascii) : bool :=
  existsb (fun it => item_matches it c) cls.

(** The text matched when the pattern matches at the start of [s]. *)
Fixpoint match_here (re : regex) (s : string) : option string :=
  match re with
  | [] => Some EmptyString
  | cls :: re' =>
      match s with
      | EmptyString => None
      | String c s' =>
          if class_matches cls c
          then option_map (String c) (match_here re' s')
          else None
      end
  end.

(** [re.search(re, s)]: the match at the leftmost position where the
    pattern matches; the result stands for [.group(0)] of the match
    object, [None] for no match. *)
Fixpoint search (re : regex) (s : string) : option string :=
  match match_here re s with
  | Some m => Some m
  | None =>
      match s with
      | EmptyString => None
      | String _ s' => search re s'
      end
  end.

(** [m] is a word of the pattern: one character per class, in order. *)
Fixpoint word (re : regex) (m : string) : Prop :=
  match re, m with
  | [], EmptyString => True
  | cls :: re', String c m' => class_matches cls c = true /\ word re' m'
  | _, _ => False
  end.

End Re.

(* ------------------------------------------------------------------ *)
(** ** Title parser: model year *)

Definition regex_one : Re.regex :=
  [[Re.Chr "1"]; [Re.Chr "9"]; [Re.Rng "3" "9"]; [Re.Rng "0" "9"]; [Re.Chr "s"]]%char.
Definition regex_two : Re.regex :=
  [[Re.Chr "1"]; [Re.Chr "9"]; [Re.Rng "3" "9"]; [Re.Rng "0" "9"]]%char.
Definition regex_three : Re.regex :=
  [[Re.Chr "2"]; [Re.Chr "0"]; [Re.Chr "0"; Re.Chr "1"]; [Re.Chr "0"]; [Re.Chr "s"]]%char.
Definition regex_four : Re.regex :=
  [[Re.Chr "2"]; [Re.Chr "0"]; [Re.Chr "0"; Re.Chr "1"]; [Re.Rng "0" "9"]]%char.
Definition regex_five : Re.regex :=
  [[Re.Chr "'"]; [Re.Rng "0" "9"]; [Re.Chr "0"]; [Re.Chr "s"]]%char.
Definition regex_six : Re.regex :=
  [[Re.Rng "0" "9"]; [Re.Chr "0"]; [Re.Chr "s"]]%char.
Definition regex_seven : Re.regex :=
  [[Re.Chr "'"]; [Re.Rng "0" "9"]; [Re.Rng "0" "9"]]%char.

(** Truth value of the match object or [None] that [re.search] returns. *)
Definition is_match (o : option string) : bool :=
  match o with
  | Some _ => true
  | None => false
  end.

(** [get_model_year(row)], on [row['Name']]; [None] is [np.nan]. *)
Definition get_model_year (name : string) : option string :=
  if is_match (Re.search regex_one name) then Re.search regex_one name
  else if is_match (Re.search regex_two name) then Re.search regex_two name
  else if is_match (Re.search regex_three name) then Re.search regex_three name
  else if is_match (Re.search regex_four name) then Re.search regex_four name
  else if is_match (Re.search regex_five name) then Re.search regex_five name
  else if is_match (Re.search regex_six name) then Re.search regex_six name
  else if is_match (Re.search regex_seven name) then Re.search regex_seven name
  else None.

(* ------------------------------------------------------------------ *)
(** ** Number literals: [int(str)] and [float(str)] *)

Module Num.

(** Whitespace as [int] and [float] skip it around a literal, for
    characters below 256: the separators 28 to 31, whitespace for
    [str.split], are not skipped. *)
Definition is_space (c : ascii) : bool :=
  let n := nat_of_ascii c in
  (((9 <=? n) && (n <=? 13)) || (n =? 32) || (n =? 133) || (n =? 160))%nat.

Fixpoint lstrip (s : string) : string :=
  match s with
  | EmptyString => EmptyString
  | String c s' => if is_space c then lstrip s' else s
  end.

Fixpoint rstrip (s : string) : string :=
  match s with
  | EmptyString => EmptyString
  | String c s' =>
      match rstrip s' with
      | EmptyString => if is_space c then EmptyString else String c EmptyString
      | r => String c r
      end
  end.

Definition strip (s : string) : string := rstrip (lstrip s).

Definition digit_val (c : ascii) : option Z :=
  let n := nat_of_ascii c in
  if ((48 <=? n) && (n <=? 57))%nat then Some (Z.of_nat n - 48)%Z else None.

(** A digit part: decimal digits, single underscores allowed between
    two digits.  [prev] tells whether the previous character was a digit;
    the digits come back most significant first. *)
Fixpoint digitpart_from (prev : bool) (s : string) : option (list Z) :=
  match s with
  | EmptyString => if prev then Some [] else None
  | String c s' =>
      if Ascii.eqb c "_"
      then (if prev then digitpart_from false s' else None)
      else match digit_val c with
           | Some d => option_map (cons d) (digitpart_from true s')
           | None => None
           end
  end.

Definition digitpart (s : string) : option (list Z) := digitpart_from false s.

Definition value_of (ds : list Z) : Z :=
  fold_left (fun acc d => 10 * acc + d)%Z ds 0%Z.

(** An optional sign in front of [s]: whether it is a minus, and the rest. *)
Definition split_sign (s : string) : bool * string :=
  match s with
  | String "+" r => (false, r)
  | String "-" r => (true, r)
  | _ => (false, s)
  end.

(** [sys.int_max_str_digits]: the longest digit string [int] converts. *)
Definition int_max_str_digits : nat := 4300.

(** [int(s)] for a string: surrounding whitespace, an optional sign,
    one digit part of at most [int_max_str_digits] digits; [None] stands
    for [ValueError]. *)
Definition int (s : string) : option Z :=
  let (neg, body) := split_sign (strip s) in
  match digitpart body with
  | Some ds =>
      if (int_max_str_digits <? List.length ds)%nat then None
      else Some (if neg then (- value_of ds)%Z else value_of ds)
  | None => None
  end.

(** Binary64. *)
Definition prec : Z := 53.
Definition emax : Z := 1024.
Definition float := spec_float.
Definition nan : float := S754_nan.

Definition of_Z (z : Z) : float := binary_normalize prec emax z 0 false.

(** The double nearest to [m * 10^e] (ties to even), with sign [neg]. *)
Definition of_decimal (neg : bool) (m : Z) (e : Z) : float :=
  match m with
  | Zpos p =>
      match e with
      | Zneg k =>
          SFdiv prec emax (S754_finite neg p 0) (S754_finite false (Pos.pow 10 k) 0)
      | _ => binary_normalize prec emax (if neg then - (m * 10 ^ e) else m * 10 ^ e)%Z 0 false
      end
  | _ => S754_zero neg
  end.

(** [s] cut at the first character that satisfies [p]: the part before
    it, and the part after it when there is one. *)
Fixpoint cut (p : ascii -> bool) (s : string) : string * option string :=
  match s with
  | EmptyString => (EmptyString, None)
  | String c s' =>
      if p c then (EmptyString, Some s')
      else let (a, b) := cut p s' in (String c a, b)
  end.

Definition lower (c : ascii) : ascii :=
  let n := nat_of_ascii c in
  if ((65 <=? n) && (n <=? 90))%nat then ascii_of_nat (n + 32) else c.

Fixpoint lowercase (s : string) : string :=
  match s with
  | EmptyString => EmptyString
  | String c s' => String (lower c) (lowercase s')
  end.

(** The digits of [digitpart? "." digitpart | digitpart "."?]: integer
    digits and fraction digits. *)
Definition number (s : string) : option (list Z * list Z) :=
  match cut (Ascii.eqb ".") s with
  | (ip, None) => option_map (fun ds => (ds, [])) (digitpart ip)
  | (EmptyString, Some fp) => option_map (fun ds => ([], ds)) (digitpart fp)
  | (ip, Some EmptyString) => option_map (fun ds => (ds, [])) (digitpart ip)
  | (ip, Some fp) =>
      match digitpart ip, digitpart fp with
      | Some a, Some b => Some (a, b)
      | _, _ => None
      end
  end.

(** [("e" | "E") sign? digitpart], after the letter. *)
Definition exponent (s : string) : option Z :=
  let (neg, body) := split_sign s in
  option_map (fun ds => if neg then (- value_of ds)%Z else value_of ds) (digitpart body).

(** [float(s)] for a string: surrounding whitespace, an optional sign,
    then [inf], [infinity] or [nan] in any case, or a decimal number with
    an optional exponent, rounded to the nearest double; [None] stands
    for [ValueError]. *)
Definition float_of_string (s : string) : option float :=
  let (neg, body) := split_sign (strip s) in
  let low := lowercase body in
  if String.eqb low "inf" || String.eqb low "infinity" then Some (S754_infinity neg)
  else if String.eqb low "nan" then Some S754_nan
  else
    let (mant, ex) := cut (fun c => Ascii.eqb (lower c) "e") body in
    match number mant, (match ex with None => Some 0%Z | Some t => exponent t end) with
    | Some (ip, fp), Some e =>
        Some (of_decimal neg (value_of (ip ++ fp)%list) (e - Z.of_nat (List.length fp)))
    | _, _ => None
    end.

(** [np.isfinite] *)
Definition isfinite (x : float) : bool :=
  match x with
  | S754_zero _ | S754_finite _ _ _ => true
  | S754_infinity _ | S754_nan => false
  end.

(** [x < y] and [x > y] on doubles; false as soon as one side is NaN. *)
Definition lt (x y : float) : bool := SFltb x y.
Definition gt (x y : float) : bool := SFltb y x.

(** The exact value of a finite double, as numerator and power of two. *)
Definition exact_value (x : float) : option (Z * Z) :=
  match x with
  | S754_zero _ => Some (0%Z, 0%Z)
  | S754_finite s m e => Some (if s then Zneg m else Zpos m, e)
  | _ => None
  end.

End Num.

(* ------------------------------------------------------------------ *)
(** ** Title parser: year normalisation and colour *)

(** [clean_model_year(row)], on [row['Model Year']]: a string from
    [get_model_year] or [np.nan] ([None]).  The result column holds
    integers and [np.nan]. *)
Definition clean_model_year (model_year : option string) : result (option Z) :=
  match model_year with
  | Some row =>
      if Str.contains "00s" row then Ok (Some 2005%Z)
      else if Str.contains "10s" row then Ok (Some 2015%Z)
      else if Str.contains "30s" row then Ok (Some 1935%Z)
      else if Str.contains "50s" row then Ok (Some 1955%Z)
      else if Str.contains "60s" row then Ok (Some 1965%Z)
      else if Str.contains "'69" row then Ok (Some 1969%Z)
      else if Str.contains "70s" row then Ok (Some 1975%Z)
      else if Str.contains "80s" row then Ok (Some 1985%Z)
      else if Str.contains "90s" row then Ok (Some 1995%Z)
      else match Num.int row with
           | Some z => Ok (Some z)
           | None => Raise ValueError
           end
  | None => Ok None
  end.

Definition colors : list string :=
  ["Burst";
   "Sunburst";
   "Fireburst";
   "Honeyburst";
   "Blue";
   "White";
   "Black";
   "Natural";
   "Blonde";
   "Turquoise";
   "Red";
   "Green";
   "Gold";
   "Silver";
   "Pink";
   "Yellow";
   "Orange";
   "Cherry";
   "Violet";
   "Ebony";
   "Brown";
   "Mahogany";
   "Walnut";
   "Ivory"].

(** The loop [for color in colors: if color in name: return color],
    falling through to ["NA"]. *)
Fixpoint color_loop (cs : list string) (name : string) : string :=
  match cs with
  | [] => "NA"
  | color :: cs' => if Str.contains color name then color else color_loop cs' name
  end.

(** [get_model_color(row)], on [row['Name']]. *)
Definition get_model_color (name : string) : string := color_loop colors name.

(* ------------------------------------------------------------------ *)
(** ** Price normaliser *)

(** [float(s.replace(',','')[1:])] *)
Definition price_to_float (s : string) : result Num.float :=
  match Num.float_of_string (Str.drop_first (Str.remove_char "," s)) with
  | Some x => Ok x
  | None => Raise ValueError
  end.

(** [clean_asking_price(row)], on [row['Asking']]. *)
Definition clean_asking_price (asking : string) : result Num.float :=
  if String.eqb asking "FREE" then Ok Num.nan
  else price_to_float asking.

(* ------------------------------------------------------------------ *)
(** ** The scraped record dictionary

    [electric_guitar_dict]: five keys, each holding a list of displayed
    texts. *)

Module Dict.

Record t : Type := mk {
  Name : list string;
  Date : list string;
  Condition : list string;
  Asking : list string;
  Final : list string
}.

(** [{key: [] for key in data_header}] *)
Definition empty : t := mk [] [] [] [] [].

Definition append_Name (d : t) (x : string) : t :=
  mk (Name d ++ [x]) (Date d) (Condition d) (Asking d) (Final d).
Definition append_Date (d : t) (x : string) : t :=
  mk (Name d) (Date d ++ [x]) (Condition d) (Asking d) (Final d).
Definition append_Condition (d : t) (x : string) : t :=
  mk (Name d) (Date d) (Condition d ++ [x]) (Asking d) (Final d).
Definition append_Asking (d : t) (x : string) : t :=
  mk (Name d) (Date d) (Condition d) (Asking d ++ [x]) (Final d).
Definition append_Final (d : t) (x : string) : t :=
  mk (Name d) (Date d) (Condition d) (Asking d) (Final d ++ [x]).

End Dict.

(* ------------------------------------------------------------------ *)
(** ** Scraper *)

Module Scrape.

(** Values of the expression ['price-guide' and '/guide' in link]. *)
Inductive pyval : Type :=
| PStr (s : string)
| PBool (b : bool).

Definition truthy (v : pyval) : bool :=
  match v with
  | PStr s => negb (String.eqb s EmptyString)
  | PBool b => b
  end.

(** [x and y]: [x] when [x] is falsy, else [y]. *)
Definition py_and (x y : pyval) : pyval := if truthy x then y else x.

(** The condition of [if 'price-guide' and '/guide' in link:]; [in]
    binds tighter than [and]. *)
Definition keep_link (link : string) : bool :=
  truthy (py_and (PStr "price-guide") (PBool (Str.contains "/guide" link))).

(** [str(link.get_attribute('href'))]; an anchor without [href] gives
    [None], printed as the text [None]. *)
Definition href_str (href : option string) : string :=
  match href with
  | Some u => u
  | None => "None"
  end.

(** What the browser shows on one page of the listings index: the
    [href] of every anchor, and whether a link with text [Next] exists. *)
Record index_page : Type := {
  anchors : list (option string);
  has_next : bool
}.

(** The inner loop [for link in links]. *)
Fixpoint links_loop (hrefs : list (option string)) (electric_guitar_links : list string)
  : list string :=
  match hrefs with
  | [] => electric_guitar_links
  | h :: hrefs' =>
      let link := href_str h in
      links_loop hrefs'
        (if keep_link link then electric_guitar_links ++ [link]%list
         else electric_guitar_links)
  end.

(** What the browser shows on one guitar page: the text of the
    [heading-1] element when there is one, and the texts of the elements
    of class [date], [condition] and [price-history-table-price] in
    document order. *)
Record listing : Type := {
  heading_1 : option string;
  date : list string;
  condition : list string;
  price_history_table_price : list string
}.

(** The loop over [prices] with its [counter]. *)
Fixpoint price_loop (prices : list string) (counter : Z) (d : Dict.t) : Dict.t :=
  match prices with
  | [] => d
  | price :: prices' =>
      price_loop prices' (counter + 1)%Z
        (if (counter mod 2 =? 1)%Z then Dict.append_Asking d price
         else Dict.append_Final d price)
  end.

(** The body of [for link in electric_guitar_links], once the page is
    loaded.  No [date] element within the delay: [TimeoutException],
    [continue]. *)
Definition visit (pg : listing) (electric_guitar_dict : Dict.t) : result Dict.t :=
  match date pg with
  | [] => Ok electric_guitar_dict
  | _ :: _ =>
      match heading_1 pg with
      | None => Raise NoSuchElementException
      | Some name =>
          let dates := date pg in
          let conditions := condition pg in
          let prices := price_history_table_price pg in
          let d := fold_left (fun d _ => Dict.append_Name d name)
                     (seq 0 (List.length dates - 1)) electric_guitar_dict in
          let d := fold_left Dict.append_Date (tl dates) d in
          let d := fold_left Dict.append_Condition (tl conditions) d in
          Ok (price_loop prices 1%Z d)
      end
  end.

Section Browser.

(** The listings index after [k] clicks on [Next], and the page behind
    each guitar link. *)
Variable index : nat -> index_page.
Variable page : string -> listing.

(** [for pages in range(1, num_listings+1)], [todo] iterations left,
    the browser on index page [k]. *)
Fixpoint pages_loop (todo k : nat) (electric_guitar_links : list string)
  : result (list string) :=
  match todo with
  | O => Ok electric_guitar_links
  | S todo' =>
      let links := links_loop (anchors (index k)) electric_guitar_links in
      if has_next (index k) then pages_loop todo' (S k) links
      else Raise NoSuchElementException
  end.

Definition num_listings : nat := 213.

Definition get_site_links : result (list string) :=
  pages_loop num_listings 0 [].

Fixpoint get_data_loop (links : list string) (d : Dict.t) : result Dict.t :=
  match links with
  | [] => Ok d
  | link :: links' => d' <- visit (page link) d ;; get_data_loop links' d'
  end.

Definition get_data (electric_guitar_links : list string) : result Dict.t :=
  get_data_loop electric_guitar_links Dict.empty.

End Browser.

End Scrape.

(* ------------------------------------------------------------------ *)
(** ** Dataset builder *)

(** Rows of the frame that [to_df] returns: every column still holds
    the displayed text. *)
Module Raw.

Record row : Type := mk {
  index : nat;
  Final : string;
  Asking : string;
  Name : string;
  Date : string;
  Condition : string;
  Brand : string
}.

End Raw.

(** Rows of the full cleaned table. *)
Module Clean.

Record row : Type := mk {
  index : nat;
  Final : Num.float;
  Asking : Num.float;
  Name : string;
  Date : string;
  Condition : string;
  Brand : string;
  Model_Year : option Z;
  Model_Color : string
}.

End Clean.

(** The feature table: [Final], [Asking], [Model Year] and the three
    groups of indicator columns. *)
Module Feature.

Record row : Type := mk_row {
  index : nat;
  Final : Num.float;
  Asking : Num.float;
  Model_Year : option Z;
  Brand_dummies : list bool;
  Condition_dummies : list bool;
  Color_dummies : list bool
}.

Record table : Type := mk {
  Brand_columns : list string;
  Condition_columns : list string;
  Color_columns : list string;
  rows : list row
}.

End Feature.

Module Pandas.

(** [pd.DataFrame.from_dict(d)[columns]], before [Brand] exists: rows
    labelled 0, 1, ...; lists of unequal length raise [ValueError]. *)
Fixpoint from_dict_rows (i : nat) (names dates conditions askings finals : list string)
  : result (list Raw.row) :=
  match names, dates, conditions, askings, finals with
  | [], [], [], [], [] => Ok []
  | n :: ns, d :: ds, c :: cs, a :: aa, f :: fs =>
      rest <- from_dict_rows (S i) ns ds cs aa fs ;;
      Ok (Raw.mk i f a n d c EmptyString :: rest)
  | _, _, _, _, _ => Raise ValueError
  end.

Definition from_dict (d : Dict.t) : result (list Raw.row) :=
  from_dict_rows 0 (Dict.Name d) (Dict.Date d) (Dict.Condition d)
    (Dict.Asking d) (Dict.Final d).

(** Number of rows holding [b]. *)
Definition count (b : string) (col : list string) : nat :=
  count_occ string_dec col b.

(** The distinct values of a column, in order of first appearance. *)
Fixpoint unique (col : list string) : list string :=
  match col with
  | [] => []
  | x :: col' => x :: filter (fun y => negb (String.eqb x y)) (unique col')
  end.

(** What [Series.value_counts().index.tolist()] promises: the distinct
    values, most frequent first.  The order among values of equal count
    is left open. *)
Definition value_counts_spec (value_counts : list string -> list string) : Prop :=
  forall col,
    NoDup (value_counts col) /\
    (forall b, In b (value_counts col) <-> In b col) /\
    (forall pre b post b',
        value_counts col = (pre ++ b :: post)%list -> In b' post ->
        count b' col <= count b col).

Fixpoint insert_by_count (cnt : string -> nat) (b : string) (sorted : list string)
  : list string :=
  match sorted with
  | [] => [b]
  | x :: sorted' =>
      if (cnt x <=? cnt b)%nat then b :: sorted
      else x :: insert_by_count cnt b sorted'
  end.

(** [a] may stand before [b] in the frequency order. *)
Definition above (cnt : string -> nat) (a b : string) : Prop := cnt b <= cnt a.

(** One such order: equal counts stay in order of first appearance. *)
Definition value_counts_stable (col : list string) : list string :=
  fold_right (insert_by_count (fun b => count b col)) [] (unique col).

Fixpoint insert_sorted (x : string) (sorted : list string) : list string :=
  match sorted with
  | [] => [x]
  | y :: sorted' => if String.leb x y then x :: sorted else y :: insert_sorted x sorted'
  end.

Definition sort (l : list string) : list string := fold_right insert_sorted [] l.

(** [pd.get_dummies(col)]: one indicator column per distinct value, in
    sorted order; the cells of a row holding [v]. *)
Definition dummy_columns (col : list string) : list string := sort (unique col).
Definition dummy_cells (columns : list string) (v : string) : list bool :=
  map (String.eqb v) columns.

(** [np.isfinite] on the [Model Year] column. *)
Definition isfinite_year (y : option Z) : bool :=
  match y with
  | Some _ => true
  | None => false
  end.

End Pandas.

Section Builder.

Variable value_counts : list string -> list string.

(** [df['Brand'] = df['Name'].apply(lambda name: name.split()[0])] *)
Definition add_brand (r : Raw.row) : result Raw.row :=
  b <- Str.first_token (Raw.Name r) ;;
  Ok (Raw.mk (Raw.index r) (Raw.Final r) (Raw.Asking r) (Raw.Name r)
        (Raw.Date r) (Raw.Condition r) b).

Definition in_list (b : string) (l : list string) : bool :=
  existsb (String.eqb b) l.

Definition to_df (electric_guitar_dict : Dict.t) : result (list Raw.row) :=
  df <- Pandas.from_dict electric_guitar_dict ;;
  df <- mapM add_brand df ;;
  let top_twenty_guitar_brands := firstn 20 (value_counts (map Raw.Brand df)) in
  let mask := fun r => in_list (Raw.Brand r) top_twenty_guitar_brands in
  Ok (filter mask df).

(** The row filters of [df_format]. *)
Definition drop_rows (df : list Clean.row) : list Clean.row :=
  let df := filter (fun r => Pandas.isfinite_year (Clean.Model_Year r)) df in
  let df := filter (fun r => Num.isfinite (Clean.Asking r)) df in
  let df := filter (fun r => Num.gt (Clean.Final r) (Num.of_Z 30)) df in
  let df := filter (fun r => Num.lt (Clean.Final r) (Num.of_Z 40000)) df in
  df.

(** [df_format(df)]: the rows that pass the filters, each reduced to its
    numeric columns and joined with its indicator cells. *)
Definition df_format (df : list Clean.row) : Feature.table :=
  let df := drop_rows df in
  let dummy_brand := Pandas.dummy_columns (map Clean.Brand df) in
  let dummy_condition := Pandas.dummy_columns (map Clean.Condition df) in
  let dummy_color := Pandas.dummy_columns (map Clean.Model_Color df) in
  Feature.mk dummy_brand dummy_condition dummy_color
    (map (fun r =>
            Feature.mk_row (Clean.index r) (Clean.Final r) (Clean.Asking r)
              (Clean.Model_Year r)
              (Pandas.dummy_cells dummy_brand (Clean.Brand r))
              (Pandas.dummy_cells dummy_condition (Clean.Condition r))
              (Pandas.dummy_cells dummy_color (Clean.Model_Color r)))
         df).

(** The new columns of [main] put next to the rows they were computed
    from. *)
Fixpoint assemble (df : list Raw.row) (years : list (option Z)) (colors : list string)
  (finals askings : list Num.float) : list Clean.row :=
  match df, years, colors, finals, askings with
  | r :: df', y :: years', c :: colors', f :: finals', a :: askings' =>
      Clean.mk (Raw.index r) f a (Raw.Name r) (Raw.Date r) (Raw.Condition r)
        (Raw.Brand r) y c
      :: assemble df' years' colors' finals' askings'
  | _, _, _, _, _ => []
  end.

(** [main()], from the loaded dictionary to the two pickled frames
    [df] and [df_dummy].  Each [apply] and the comprehension over
    [df['Final']] run over the rows in order, one column at a time; an
    exception raised for a row ends [main].  This row-wise reading of
    [apply] is that of a frame with at least one row. *)
Definition main (electric_guitar_dict : Dict.t) : result (list Clean.row * Feature.table) :=
  df <- to_df electric_guitar_dict ;;
  let model_year := map (fun r => get_model_year (Raw.Name r)) df in
  model_year <- mapM clean_model_year model_year ;;
  let model_color := map (fun r => get_model_color (Raw.Name r)) df in
  final <- mapM (fun r => price_to_float (Raw.Final r)) df ;;
  asking <- mapM (fun r => clean_asking_price (Raw.Asking r)) df ;;
  let df := assemble df model_year model_color final asking in
  let df_dummy := df_format df in
  Ok (df, df_dummy).

End Builder.

(* ------------------------------------------------------------------ *)
(** ** Vocabulary of the specification

    The notions the properties below are stated with, written from the
    prose and independent of the code above. *)

Module Spec.

Definition digit (c : ascii) : Prop :=
  In c ["0"; "1"; "2"; "3"; "4"; "5"; "6"; "7"; "8"; "9"]%char.

Definition digit_3_to_9 (c : ascii) : Prop :=
  In c ["3"; "4"; "5"; "6"; "7"; "8"; "9"]%char.

Definition zero_or_one (c : ascii) : Prop := c = "0"%char \/ c = "1"%char.

(** The seven textual patterns, by priority. *)
Inductive year_pattern : nat -> string -> Prop :=
| pattern_1 c d : digit_3_to_9 c -> digit d ->
    year_pattern 1 (String "1" (String "9" (String c (String d "s"))))
| pattern_2 c d : digit_3_to_9 c -> digit d ->
    year_pattern 2 (String "1" (String "9" (String c (String d ""))))
| pattern_3 c : zero_or_one c ->
    year_pattern 3 (String "2" (String "0" (String c "0s")))
| pattern_4 c d : zero_or_one c -> digit d ->
    year_pattern 4 (String "2" (String "0" (String c (String d ""))))
| pattern_5 d : digit d ->
    year_pattern 5 (String "'" (String d "0s"))
| pattern_6 d : digit d ->
    year_pattern 6 (String d "0s")
| pattern_7 c d : digit c -> digit d ->
    year_pattern 7 (String "'" (String c (String d ""))).

(** [m] is the leftmost piece of [s] with property [P]. *)
Definition FirstOccurrence (P : string -> Prop) (s m : string) : Prop :=
  exists pre post,
    s = pre ++ m ++ post /\ P m /\
    forall pre' m' post', s = pre' ++ m' ++ post' -> P m' ->
                          String.length pre <= String.length pre'.

(** The decade keywords and their years, in the order they are tried. *)
Definition decade_table : list (string * Z) :=
  [("00s", 2005); ("10s", 2015); ("30s", 1935); ("50s", 1955); ("60s", 1965);
   ("'69", 1969); ("70s", 1975); ("80s", 1985); ("90s", 1995)]%Z.

(** A string made of decimal digits only. *)
Fixpoint all_digits (s : string) : Prop :=
  match s with
  | EmptyString => True
  | String c s' => digit c /\ all_digits s'
  end.

(** The number a string of decimal digits denotes. *)
Fixpoint decimal_from (acc : Z) (s : string) : Z :=
  match s with
  | EmptyString => acc
  | String c s' => decimal_from (10 * acc + (Z.of_nat (nat_of_ascii c) - 48)) s'
  end.

Definition decimal (s : string) : Z := decimal_from 0 s.

(** The price at 1-indexed position [2k+1], resp. [2k+2]. *)
Definition odd_position (prices : list string) (k : nat) : option string :=
  nth_error prices (2 * k).
Definition even_position (prices : list string) (k : nat) : option string :=
  nth_error prices (2 * k + 1).

(** [b] is among the [n] most frequent values of [col]: fewer than [n]
    values occur strictly more often. *)
Definition among_most_frequent (n : nat) (b : string) (col : list string) : Prop :=
  In b col /\
  forall others, NoDup others ->
    (forall b', In b' others -> Pandas.count b col < Pandas.count b' col) ->
    List.length others < n.

(** [b] is ranked below place [n]: at least [n] values occur strictly
    more often. *)
Definition ranked_below (n : nat) (b : string) (col : list string) : Prop :=
  exists others, NoDup others /\ List.length others = n /\
    forall b', In b' others -> Pandas.count b col < Pandas.count b' col.

(** The row conditions of the feature table: year and asking price
    present, final price strictly between 30 and 40000. *)
Definition passes_filters (r : Clean.row) : Prop :=
  Clean.Model_Year r <> None /\
  Clean.Asking r <> Num.nan /\
  Num.lt (Num.of_Z 30) (Clean.Final r) = true /\
  Num.lt (Clean.Final r) (Num.of_Z 40000) = true.

(** The same conditions as the frame masks compute them. *)
Definition kept (r : Clean.row) : bool :=
  Pandas.isfinite_year (Clean.Model_Year r) &&
  Num.isfinite (Clean.Asking r) &&
  Num.gt (Clean.Final r) (Num.of_Z 30) &&
  Num.lt (Clean.Final r) (Num.of_Z 40000).

(** The frame of [to_df] just before the brand mask is applied: every
    scraped row with its [Brand]. *)
Definition branded_rows (d : Dict.t) : result (list Raw.row) :=
  df <- Pandas.from_dict d ;; mapM add_brand df.

(** A finite double whose exact value is the integer [z]. *)
Definition is_integer (x : Num.float) (z : Z) : Prop :=
  exists m e, Num.exact_value x = Some (m, e) /\ (e <= 0)%Z /\ (m = z * 2 ^ (- e))%Z.

End Spec.

(* ------------------------------------------------------------------ *)
(** ** Sample data *)

Module Sample.

(** Six scraped sales: one that passes every filter, and one for each
    way of failing them. *)
Definition sales : Dict.t :=
  Dict.mk
    ["Fender Stratocaster 1965 Black"; "Gibson Les Paul 1959 Cherry";
     "Fender Telecaster Blonde"; "Gibson SG 1970s";
     "Epiphone Casino 1990s Natural"; "Ibanez RG 2005 Blue"]
    ["1/2/2018"; "1/5/2018"; "2/1/2018"; "2/9/2018"; "3/3/2018"; "3/7/2018"]
    ["Excellent"; "Good"; "Mint"; "Good"; "Very Good"; "Mint"]
    ["$1,250"; "$40"; "$500"; "FREE"; "$50,000"; "$35"]
    ["$1,100"; "$25"; "$450"; "$300"; "$40,000"; "$30"].

(** The two frames [main] builds from them. *)
Definition frames : list Clean.row * Feature.table :=
  match main Pandas.value_counts_stable sales with
  | Ok p => p
  | Raise _ => ([], Feature.mk [] [] [] [])
  end.

Definition cleaned : list Clean.row := fst frames.
Definition features : Feature.table := snd frames.

(** The sale of index 1, sold for 25 dollars. *)
Definition cheap_sale : Clean.row :=
  Clean.mk 1 (Num.of_Z 25) (Num.of_Z 40) "Gibson Les Paul 1959 Cherry" "1/5/2018"
    "Good" "Gibson" (Some 1959%Z) "Cherry".

(** Twenty brands with two sales each and one brand with a single
    sale. *)
Definition twenty : list string :=
  ["Fender"; "Gibson"; "Epiphone"; "Ibanez"; "PRS"; "Gretsch"; "Squier"; "ESP";
   "Jackson"; "Schecter"; "Yamaha"; "Rickenbacker"; "Danelectro"; "Charvel";
   "Kramer"; "Peavey"; "Dean"; "Washburn"; "G&L"; "Guild"].

Definition market_names : list string :=
  (map (fun b => String.append b " Standard 1995") twenty
   ++ ["Zenith Archtop 1955"]
   ++ map (fun b => String.append b " Custom 2005 Black") twenty)%list.

Definition market : Dict.t :=
  Dict.mk market_names
    (map (fun _ => "4/1/2018") market_names)
    (map (fun _ => "Good") market_names)
    (map (fun _ => "$550") market_names)
    (map (fun _ => "$500") market_names).

Definition market_frames : list Clean.row * Feature.table :=
  match main Pandas.value_counts_stable market with
  | Ok p => p
  | Raise _ => ([], Feature.mk [] [] [] [])
  end.

(** Two sales, one of them titled with a two-digit year. *)
Definition vintage : Dict.t :=
  Dict.mk ["Fender Stratocaster 1965 Black"; "Gibson Les Paul '59"]
    ["1/2/2018"; "1/5/2018"] ["Excellent"; "Good"]
    ["$1,250"; "$4,000"] ["$1,100"; "$3,900"].

(** A guitar page with a header entry and two sales. *)
Definition guitar_page : Scrape.listing :=
  {| Scrape.heading_1 := Some "Fender Stratocaster 1965 Black";
     Scrape.date := ["Date"; "1/2/2018"; "1/9/2018"];
     Scrape.condition := ["Condition"; "Excellent"; "Good"];
     Scrape.price_history_table_price := ["$1,250"; "$1,100"; "$900"; "$850"] |}.

(** A link of the buying guide, outside the price guide. *)
Definition guide_link : string := "https://reverb.com/guide/fender-stratocaster".

End Sample.

(* ------------------------------------------------------------------ *)
(** ** Further notions

    Vocabulary for the properties of the crawl loops, of [to_df] and of
    the frames of [main]. *)

Module Notions.

(** The characters of a string are all whitespace. *)
Fixpoint blank (s : string) : Prop :=
  match s with
  | EmptyString => True
  | String c s' => Str.is_space c = true /\ blank s'
  end.

(** No character of a string is whitespace. *)
Fixpoint spaceless (s : string) : Prop :=
  match s with
  | EmptyString => True
  | String c s' => Str.is_space c = false /\ spaceless s'
  end.

(** [b] is the first whitespace-delimited token of [name]: a non-empty
    piece without whitespace, with only whitespace before it and the end
    of the title or a whitespace character after it. *)
Definition first_token_of (name b : string) : Prop :=
  exists pre rest,
    name = pre ++ b ++ rest /\ blank pre /\ b <> "" /\ spaceless b /\
    (rest = "" \/ exists c r, rest = String c r /\ Str.is_space c = true).

(** The links one index page contributes, in document order. *)
Definition page_links (pg : Scrape.index_page) : list string :=
  filter Scrape.keep_link (map Scrape.href_str (Scrape.anchors pg)).

(** A guitar page on which the crawl finds a sale history. *)
Definition shows_sales (pg : Scrape.listing) : bool :=
  match Scrape.date pg with
  | [] => false
  | _ :: _ => true
  end.

(** The number of sales a guitar page lists below its header entry. *)
Definition sales_on (pg : Scrape.listing) : nat := List.length (Scrape.date pg) - 1.

(** A guitar page whose element counts agree: as many condition entries
    as date entries, two prices per sale. *)
Definition consistent (pg : Scrape.listing) : Prop :=
  List.length (Scrape.condition pg) = List.length (Scrape.date pg) /\
  List.length (Scrape.price_history_table_price pg) = 2 * sales_on pg.

(** The five lists of the dictionary all have length [n]. *)
Definition rectangular (d : Dict.t) (n : nat) : Prop :=
  List.length (Dict.Name d) = n /\ List.length (Dict.Date d) = n /\
  List.length (Dict.Condition d) = n /\ List.length (Dict.Asking d) = n /\
  List.length (Dict.Final d) = n.

(** The row of [to_df] holds the scraped entries found at its index
    label. *)
Definition scraped_at (d : Dict.t) (r : Raw.row) : Prop :=
  nth_error (Dict.Final d) (Raw.index r) = Some (Raw.Final r) /\
  nth_error (Dict.Asking d) (Raw.index r) = Some (Raw.Asking r) /\
  nth_error (Dict.Name d) (Raw.index r) = Some (Raw.Name r) /\
  nth_error (Dict.Date d) (Raw.index r) = Some (Raw.Date r) /\
  nth_error (Dict.Condition d) (Raw.index r) = Some (Raw.Condition r).

(** The cleaned row [c] is derived from the row [r] of [to_df]. *)
Definition derived_from (r : Raw.row) (c : Clean.row) : Prop :=
  Clean.index c = Raw.index r /\
  Clean.Name c = Raw.Name r /\
  Clean.Date c = Raw.Date r /\
  Clean.Condition c = Raw.Condition r /\
  Clean.Brand c = Raw.Brand r /\
  clean_model_year (get_model_year (Raw.Name r)) = Ok (Clean.Model_Year c) /\
  Clean.Model_Color c = get_model_color (Raw.Name r) /\
  price_to_float (Raw.Final r) = Ok (Clean.Final c) /\
  clean_asking_price (Raw.Asking r) = Ok (Clean.Asking c).

(** Number of indicator cells that are set. *)
Definition set_cells (cells : list bool) : nat := count_occ bool_dec cells true.

(** Column names in non-decreasing order. *)
Definition in_order (columns : list string) : Prop :=
  Sorted (fun a b => String.leb a b = true) columns.

End Notions.

(** A small site to run the crawl on. *)
Module Site.

(** Every index page shows the same three anchors and a [Next] link. *)
Definition index (k : nat) : Scrape.index_page :=
  {| Scrape.anchors :=
       [Some "https://reverb.com/price-guide/guide/123-fender-stratocaster";
        None;
        Some "https://reverb.com/price-guide/electric-guitars"];
     Scrape.has_next := true |}.

(** The index runs out of [Next] links on its third page. *)
Definition short_index (k : nat) : Scrape.index_page :=
  {| Scrape.anchors := Scrape.anchors (index k);
     Scrape.has_next := (k <? 2)%nat |}.

(** One guitar link leads to a page with two sales, one to a page with a
    sale history but no heading, any other to a page without sales. *)
Definition page (link : string) : Scrape.listing :=
  if String.eqb link "strat" then Sample.guitar_page
  else if String.eqb link "untitled" then
    {| Scrape.heading_1 := None;
       Scrape.date := ["Date"; "1/2/2018"];
       Scrape.condition := ["Condition"; "Good"];
       Scrape.price_history_table_price := ["$10"; "$9"] |}
  else
    {| Scrape.heading_1 := Some "Unsold";
       Scrape.date := [];
       Scrape.condition := [];
       Scrape.price_history_table_price := [] |}.

End Site.

(* ------------------------------------------------------------------ *)
(** ** Facts about strings *)

Module StrFacts.
Import Str.

Lemma startswith_spec (p s : string) :
  startswith p s = true <-> exists post, s = p ++ post.
Proof.
  revert s; induction p as [|a p IH]; intros s; simpl.
  - split; [intros _; now exists s | reflexivity].
  - destruct s as [|b s].
    + split; [discriminate | intros [post H]; discriminate].
    + rewrite andb_true_iff, Ascii.eqb_eq, IH. split.
      * intros [-> [post ->]]. now exists post.
      * intros [post H]. injection H as -> ->. split; [reflexivity | now exists post].
Qed.

Lemma contains_spec (sub s : string) :
  contains sub s = true <-> Occurs sub s.
Proof.
  unfold Occurs. induction s as [|b s IH]; simpl.
  - rewrite orb_false_r, startswith_spec. split.
    + intros [post H]. now exists "", post.
    + intros [[|x pre] [post H]]; [now exists post | discriminate].
  - rewrite orb_true_iff, startswith_spec, IH. split.
    + intros [[post H] | [pre [post H]]].
      * now exists "", post.
      * exists (String b pre), post. simpl. now rewrite H.
    + intros [[|x pre] [post H]].
      * left. now exists post.
      * right. simpl in H. injection H as _ H. now exists pre, post.
Qed.

Lemma contains_false (sub s : string) :
  contains sub s = false <-> ~ Occurs sub s.
Proof.
  rewrite <- contains_spec. destruct (contains sub s); split; congruence.
Qed.

End StrFacts.

(* ------------------------------------------------------------------ *)
(** ** Facts about pattern search *)

Module ReFacts.
Import Str Re StrFacts.

Lemma match_here_spec (re : regex) (s m : string) :
  match_here re s = Some m <-> word re m /\ exists post, s = m ++ post.
Proof.
  revert s m; induction re as [|cls re IH]; intros s m; simpl.
  - split.
    + intros H. injection H as <-. split; [exact I | now exists s].
    + intros [H _]. destruct m; [reflexivity | contradiction].
  - destruct s as [|c s].
    + split; [discriminate|]. intros [H [post E]].
      destruct m; [contradiction | discriminate].
    + destruct (class_matches cls c) eqn:Hc.
      * destruct (match_here re s) as [m0|] eqn:Hm; simpl.
        -- apply IH in Hm. destruct Hm as [Hw [post ->]]. split.
           ++ intros H. injection H as <-. simpl. split; [now split | now exists post].
           ++ intros [Hw' [post' E]]. destruct m as [|c' m]; [contradiction|].
              simpl in E. injection E as <- E. destruct Hw' as [_ Hw'].
              assert (Hm' : match_here re (m0 ++ post) = Some m).
              { apply IH. split; [assumption | now exists post']. }
              assert (Hm0 : match_here re (m0 ++ post) = Some m0).
              { apply IH. split; [assumption | now exists post]. }
              congruence.
        -- split; [discriminate|]. intros [Hw [post E]].
           destruct m as [|c' m]; [contradiction|].
           simpl in E. injection E as <- E. destruct Hw as [_ Hw].
           assert (Hm' : match_here re s = Some m).
           { apply IH. split; [assumption | now exists post]. }
           congruence.
      * split; [discriminate|]. intros [Hw [post E]].
        destruct m as [|c' m]; [contradiction|].
        simpl in E. injection E as <- E. destruct Hw as [Hw _]. congruence.
Qed.

Lemma search_Some (re : regex) (s m : string) :
  search re s = Some m -> Spec.FirstOccurrence (word re) s m.
Proof.
  unfold Spec.FirstOccurrence.
  induction s as [|c s IH]; simpl search.
  - destruct (match_here re "") as [m0|] eqn:Hm; [|discriminate].
    intros H; injection H as <-. apply match_here_spec in Hm.
    destruct Hm as [Hw [post E]]. exists "", post. simpl.
    repeat split; [assumption | assumption | intros; lia].
  - destruct (match_here re (String c s)) as [m0|] eqn:Hm.
    + intros H; injection H as <-. apply match_here_spec in Hm.
      destruct Hm as [Hw [post E]]. exists "", post. simpl.
      repeat split; [assumption | assumption | intros; lia].
    + intros H. destruct (IH H) as [pre [post [E [Hw Hmin]]]].
      exists (String c pre), post. simpl. rewrite <- E.
      repeat split; [assumption|].
      intros [|c' pre'] m' post' E' Hw'.
      * exfalso. simpl in E'.
        assert (Hm' : match_here re (String c s) = Some m').
        { apply match_here_spec. split; [assumption | now exists post']. }
        congruence.
      * simpl in E'. injection E' as _ E'. simpl.
        apply le_n_S. now apply (Hmin pre' m' post').
Qed.

Lemma search_None (re : regex) (s : string) :
  search re s = None -> forall m, word re m -> ~ Occurs m s.
Proof.
  induction s as [|c s IH]; simpl search; intros H m Hw [pre [post E]].
  - destruct (match_here re "") eqn:Hm; [discriminate|].
    destruct pre; [|discriminate]. simpl in E.
    assert (Hm' : match_here re "" = Some m).
    { apply match_here_spec. split; [assumption | now exists post]. }
    congruence.
  - destruct (match_here re (String c s)) eqn:Hm; [discriminate|].
    destruct pre as [|c' pre].
    + simpl in E.
      assert (Hm' : match_here re (String c s) = Some m).
      { apply match_here_spec. split; [assumption | now exists post]. }
      congruence.
    + simpl in E. injection E as _ E.
      apply (IH H m Hw). now exists pre, post.
Qed.

End ReFacts.

(* ------------------------------------------------------------------ *)
(** ** Year extraction *)

Module YearFacts.
Import Str Re StrFacts ReFacts Spec.

Lemma class_literal (a c : ascii) : class_matches [Chr a] c = true <-> c = a.
Proof.
  unfold class_matches; simpl. rewrite orb_false_r, Ascii.eqb_eq.
  split; congruence.
Qed.

Ltac by_cases_on_char c :=
  destruct c as [[] [] [] [] [] [] [] []]; vm_compute;
  (split; [ intros H; first [discriminate H | tauto]
          | intros H; first [reflexivity | exfalso; intuition discriminate] ]).

Lemma class_digit (c : ascii) :
  class_matches [Rng "0" "9"] c = true <-> digit c.
Proof. by_cases_on_char c. Qed.

Lemma class_3_to_9 (c : ascii) :
  class_matches [Rng "3" "9"] c = true <-> digit_3_to_9 c.
Proof. by_cases_on_char c. Qed.

Lemma class_0_or_1 (c : ascii) :
  class_matches [Chr "0"; Chr "1"] c = true <-> zero_or_one c.
Proof. by_cases_on_char c. Qed.

Ltac open_word H :=
  repeat match type of H with
         | word _ ?m => is_var m; destruct m; cbn [word] in H; try contradiction
         | match ?m with EmptyString => _ | String _ _ => _ end =>
             is_var m; destruct m; try contradiction
         | _ /\ _ => let H1 := fresh in destruct H as [H1 H]
         end.

Ltac read_classes :=
  repeat match goal with
         | H : class_matches [Chr _] _ = true |- _ => apply class_literal in H; subst
         | H : class_matches [Rng "0" "9"] _ = true |- _ => apply class_digit in H
         | H : class_matches [Rng "3" "9"] _ = true |- _ => apply class_3_to_9 in H
         | H : class_matches [Chr "0"; Chr "1"] _ = true |- _ => apply class_0_or_1 in H
         end.

Ltac write_classes :=
  cbn [word regex_one regex_two regex_three regex_four regex_five regex_six
       regex_seven];
  repeat split;
  first [ now apply class_literal | now apply class_digit
        | now apply class_3_to_9 | now apply class_0_or_1 ].

Ltac pattern_is_word k ctor :=
  let m := fresh "m" in
  let H := fresh "H" in
  intros m; split;
  [ intros H; inversion H; subst; write_classes
  | intros H; unfold regex_one, regex_two, regex_three, regex_four,
      regex_five, regex_six, regex_seven in H;
    open_word H; read_classes; now apply ctor ].

Lemma pattern_word_1 : forall m, year_pattern 1 m <-> word regex_one m.
Proof. pattern_is_word 1 pattern_1. Qed.

Lemma pattern_word_2 : forall m, year_pattern 2 m <-> word regex_two m.
Proof. pattern_is_word 2 pattern_2. Qed.

Lemma pattern_word_3 : forall m, year_pattern 3 m <-> word regex_three m.
Proof. pattern_is_word 3 pattern_3. Qed.

Lemma pattern_word_4 : forall m, year_pattern 4 m <-> word regex_four m.
Proof. pattern_is_word 4 pattern_4. Qed.

Lemma pattern_word_5 : forall m, year_pattern 5 m <-> word regex_five m.
Proof. pattern_is_word 5 pattern_5. Qed.

Lemma pattern_word_6 : forall m, year_pattern 6 m <-> word regex_six m.
Proof. pattern_is_word 6 pattern_6. Qed.

Lemma pattern_word_7 : forall m, year_pattern 7 m <-> word regex_seven m.
Proof. pattern_is_word 7 pattern_7. Qed.

Lemma FirstOccurrence_ext (P Q : string -> Prop) (s m : string) :
  (forall x, Q x <-> P x) -> FirstOccurrence P s m -> FirstOccurrence Q s m.
Proof.
  intros HPQ [pre [post [E [HP Hmin]]]]. exists pre, post.
  repeat split; [assumption | now apply HPQ |].
  intros pre' m' post' E' HQ. apply (Hmin pre' m' post' E'). now apply HPQ.
Qed.

End YearFacts.

Section YearExtraction.
Import Str Re StrFacts ReFacts Spec YearFacts.

Lemma pattern_absent (k : nat) (re : regex) (title : string) :
  (forall m, year_pattern k m <-> word re m) ->
  search re title = None ->
  forall m, year_pattern k m -> ~ Occurs m title.
Proof.
  intros Hk Hs m Hp. apply (search_None re title Hs m). now apply Hk.
Qed.

Lemma pattern_found (k : nat) (re : regex) (title raw : string) :
  (forall m, year_pattern k m <-> word re m) ->
  search re title = Some raw ->
  FirstOccurrence (year_pattern k) title raw.
Proof.
  intros Hk Hs. apply (FirstOccurrence_ext (word re)); [exact Hk|].
  now apply search_Some.
Qed.

Ltac earlier_absent :=
  let j := fresh "j" in
  let m := fresh "m" in
  let Hj := fresh "Hj" in
  let Hp := fresh "Hp" in
  intros j m Hj Hp;
  do 8 (destruct j as [|j]; [solve [inversion Hp | lia | absent_here m Hp] |]);
  inversion Hp
with absent_here m Hp :=
  match goal with
  | H : search ?re _ = None |- _ =>
      first [ exact (pattern_absent 1 re _ pattern_word_1 H m Hp)
            | exact (pattern_absent 2 re _ pattern_word_2 H m Hp)
            | exact (pattern_absent 3 re _ pattern_word_3 H m Hp)
            | exact (pattern_absent 4 re _ pattern_word_4 H m Hp)
            | exact (pattern_absent 5 re _ pattern_word_5 H m Hp)
            | exact (pattern_absent 6 re _ pattern_word_6 H m Hp)
            | exact (pattern_absent 7 re _ pattern_word_7 H m Hp) ]
  end.

(** C1. For every title, [get_model_year] tries the seven textual
    patterns in priority order: when it returns a text, that text is the
    leftmost occurrence in the title of some pattern [k], and no pattern of
    higher priority occurs anywhere in the title; when it returns missing,
    none of the seven patterns occurs in the title. *)
Theorem get_model_year_priority (title : string) :
  match get_model_year title with
  | Some raw =>
      exists k, 1 <= k <= 7 /\
        FirstOccurrence (year_pattern k) title raw /\
        forall j m, j < k -> year_pattern j m -> ~ Occurs m title
  | None => forall k m, year_pattern k m -> ~ Occurs m title
  end.
Proof.
  unfold get_model_year.
  destruct (search regex_one title) as [raw|] eqn:H1; cbn [is_match].
  { exists 1. split; [lia|]. split;
      [exact (pattern_found 1 _ _ _ pattern_word_1 H1) | earlier_absent]. }
  destruct (search regex_two title) as [raw|] eqn:H2; cbn [is_match].
  { exists 2. split; [lia|]. split;
      [exact (pattern_found 2 _ _ _ pattern_word_2 H2) | earlier_absent]. }
  destruct (search regex_three title) as [raw|] eqn:H3; cbn [is_match].
  { exists 3. split; [lia|]. split;
      [exact (pattern_found 3 _ _ _ pattern_word_3 H3) | earlier_absent]. }
  destruct (search regex_four title) as [raw|] eqn:H4; cbn [is_match].
  { exists 4. split; [lia|]. split;
      [exact (pattern_found 4 _ _ _ pattern_word_4 H4) | earlier_absent]. }
  destruct (search regex_five title) as [raw|] eqn:H5; cbn [is_match].
  { exists 5. split; [lia|]. split;
      [exact (pattern_found 5 _ _ _ pattern_word_5 H5) | earlier_absent]. }
  destruct (search regex_six title) as [raw|] eqn:H6; cbn [is_match].
  { exists 6. split; [lia|]. split;
      [exact (pattern_found 6 _ _ _ pattern_word_6 H6) | earlier_absent]. }
  destruct (search regex_seven title) as [raw|] eqn:H7; cbn [is_match].
  { exists 7. split; [lia|]. split;
      [exact (pattern_found 7 _ _ _ pattern_word_7 H7) | earlier_absent]. }
  intros k m Hp.
  do 8 (destruct k as [|k]; [solve [inversion Hp | absent_here m Hp] |]).
  inversion Hp.
Qed.

End YearExtraction.

(* ------------------------------------------------------------------ *)
(** ** Year normalisation *)

Module ScanFacts.

Lemma find_first {A : Type} (f : A -> bool) (l pre : list A) (x : A) (post : list A) :
  l = (pre ++ x :: post)%list -> f x = true ->
  (forall y, In y pre -> f y = false) ->
  find f l = Some x.
Proof.
  intros -> Hx. induction pre as [|y pre IH]; intros Hpre; simpl.
  - now rewrite Hx.
  - rewrite (Hpre y (or_introl eq_refl)). apply IH.
    intros z Hz. apply Hpre. now right.
Qed.

Lemma find_nowhere {A : Type} (f : A -> bool) (l : list A) :
  (forall y, In y l -> f y = false) -> find f l = None.
Proof.
  induction l as [|y l IH]; intros Hl; simpl; [reflexivity|].
  rewrite (Hl y (or_introl eq_refl)). apply IH.
  intros z Hz. apply Hl. now right.
Qed.

End ScanFacts.

Section YearNormalisation.
Import Str StrFacts Spec ScanFacts.

Lemma clean_model_year_scan (raw : string) :
  clean_model_year (Some raw) =
  match find (fun p => contains (fst p) raw) decade_table with
  | Some p => Ok (Some (snd p))
  | None =>
      match Num.int raw with
      | Some z => Ok (Some z)
      | None => Raise ValueError
      end
  end.
Proof.
  unfold clean_model_year, decade_table. cbn [find fst snd].
  repeat (match goal with
          | |- context [contains ?k raw] => destruct (contains k raw); [reflexivity|]
          end).
  reflexivity.
Qed.

End YearNormalisation.

Section ParseError.
Import Str Re StrFacts ReFacts Spec YearFacts.

(** Every text that [get_model_year] returns has the shape of one of the
    seven patterns. *)
Lemma get_model_year_shape (title raw : string) :
  get_model_year title = Some raw -> exists k, year_pattern k raw.
Proof.
  unfold get_model_year.
  repeat match goal with
         | |- context [is_match (search ?re title)] =>
             let H := fresh "H" in
             destruct (search re title) eqn:H; cbn [is_match];
             [ intros E; rewrite E in H; apply search_Some in H;
               destruct H as [pre [post [_ [H _]]]] |]
         end;
    try discriminate.
  - exists 1. now apply pattern_word_1.
  - exists 2. now apply pattern_word_2.
  - exists 3. now apply pattern_word_3.
  - exists 4. now apply pattern_word_4.
  - exists 5. now apply pattern_word_5.
  - exists 6. now apply pattern_word_6.
  - exists 7. now apply pattern_word_7.
Qed.

Ltac with_keyword Hno key y :=
  apply (Hno key y);
  [ cbv [decade_table In]; tauto | apply contains_spec; vm_compute; reflexivity ].

Ltac has_keyword Hno :=
  exfalso;
  first [ with_keyword Hno "00s" 2005%Z | with_keyword Hno "10s" 2015%Z
        | with_keyword Hno "30s" 1935%Z | with_keyword Hno "50s" 1955%Z
        | with_keyword Hno "60s" 1965%Z | with_keyword Hno "'69" 1969%Z
        | with_keyword Hno "70s" 1975%Z | with_keyword Hno "80s" 1985%Z
        | with_keyword Hno "90s" 1995%Z ].

Ltac is_number Hnd :=
  exfalso; apply Hnd; cbv [all_digits digit In]; tauto.

Lemma pattern_parse_error (k : nat) (raw : string) :
  year_pattern k raw ->
  ~ all_digits raw ->
  (forall key y, In (key, y) decade_table -> ~ Occurs key raw) ->
  clean_model_year (Some raw) = Raise ValueError.
Proof.
  intros Hp Hnd Hno.
  destruct Hp;
    unfold digit, digit_3_to_9, zero_or_one in *; cbn [In] in *;
    repeat match goal with
           | H : _ \/ _ |- _ => destruct H as [H | H]
           | H : False |- _ => destruct H
           | H : _ = ?c |- _ => is_var c; subst c
           | H : ?c = _ |- _ => is_var c; subst c
           end;
    first [ vm_compute; reflexivity | is_number Hnd | has_keyword Hno ].
Qed.

End ParseError.

(* ------------------------------------------------------------------ *)
(** ** Colour extraction *)

Section Colour.
Import Str StrFacts Spec.

Lemma color_loop_first (cs pre : list string) (c : string) (post : list string)
  (title : string) :
  cs = (pre ++ c :: post)%list ->
  Occurs c title ->
  (forall c', In c' pre -> ~ Occurs c' title) ->
  color_loop cs title = c.
Proof.
  intros -> Hc. induction pre as [|x pre IH]; intros Hpre; simpl.
  - apply contains_spec in Hc. now rewrite Hc.
  - assert (Hx : contains x title = false).
    { apply contains_false. apply Hpre. now left. }
    rewrite Hx. apply IH. intros c' Hin. apply Hpre. now right.
Qed.

Lemma color_loop_none (cs : list string) (title : string) :
  (forall c, In c cs -> ~ Occurs c title) ->
  color_loop cs title = "NA".
Proof.
  induction cs as [|x cs IH]; intros Hcs; simpl; [reflexivity|].
  assert (Hx : contains x title = false).
  { apply contains_false. apply Hcs. now left. }
  rewrite Hx. apply IH. intros c Hin. apply Hcs. now right.
Qed.

(** C4 as first stated fails here: the title "Fender Telecaster
    Sunburst" contains "Sunburst" and the colour returned for it is
    "Sunburst", not "Burst". *)
Lemma sunburst_title_returns_sunburst :
  Occurs "Sunburst" "Fender Telecaster Sunburst" /\
  get_model_color "Fender Telecaster Sunburst" = "Sunburst" /\
  get_model_color "Fender Telecaster Sunburst" <> "Burst".
Proof.
  split; [|split].
  - exists "Fender Telecaster ", "". reflexivity.
  - reflexivity.
  - discriminate.
Qed.

(** C4, amended. The 24 colour names are scanned in list order and the
    first one that occurs in the title, letter case included, is
    returned, "NA" when none occurs.  "Burst" is tried before
    "Sunburst" but, with its capital B, is no part of the word
    "Sunburst": a title containing "Sunburst" returns "Burst" only when
    "Burst" itself occurs in it, and "Sunburst" otherwise. *)
Theorem get_model_color_first :
  List.length colors = 24 /\
  (forall title pre c post,
      colors = (pre ++ c :: post)%list ->
      Occurs c title ->
      (forall c', In c' pre -> ~ Occurs c' title) ->
      get_model_color title = c) /\
  (forall title,
      (forall c, In c colors -> ~ Occurs c title) ->
      get_model_color title = "NA") /\
  (forall title, Occurs "Burst" title -> get_model_color title = "Burst") /\
  (forall title,
      Occurs "Sunburst" title -> ~ Occurs "Burst" title ->
      get_model_color title = "Sunburst") /\
  get_model_color "Fender Telecaster sunburst" = "NA".
Proof.
  split; [reflexivity|]. split; [|split; [|split; [|split]]].
  - intros title pre c post E Hc Hpre.
    exact (color_loop_first colors pre c post title E Hc Hpre).
  - intros title Hnone. exact (color_loop_none colors title Hnone).
  - intros title Hb.
    apply (color_loop_first colors [] "Burst" (tl colors) title);
      [reflexivity | assumption | intros c' []].
  - intros title Hs Hb.
    apply (color_loop_first colors ["Burst"] "Sunburst" (tl (tl colors)) title);
      [reflexivity | assumption |].
    intros c' [<- | []]. assumption.
  - reflexivity.
Qed.

Lemma get_model_color_first_witness :
  get_model_color "Gibson SG Cherry Red" = "Red".
Proof.
  apply (proj1 (proj2 get_model_color_first) "Gibson SG Cherry Red"
           (firstn 10 colors) "Red" (skipn 11 colors)).
  - reflexivity.
  - exists "Gibson SG Cherry ", "". reflexivity.
  - intros c' Hin. apply contains_false.
    simpl in Hin.
    repeat (destruct Hin as [Hin | Hin]; [rewrite <- Hin; reflexivity |]).
    destruct Hin.
Defined.

End Colour.

(* ------------------------------------------------------------------ *)
(** ** Price normalisation *)

Module NumFacts.
Import Str Spec.

Ltac each_digit H :=
  unfold digit in H; cbn [In] in H;
  repeat (destruct H as [H | H]; [subst | ]); [.. | destruct H].

Lemma digit_not_space (c : ascii) : digit c -> Num.is_space c = false.
Proof. intros H. each_digit H; reflexivity. Qed.

Lemma digit_val_digit (c : ascii) :
  digit c -> Num.digit_val c = Some (Z.of_nat (nat_of_ascii c) - 48)%Z /\
             (0 <= Z.of_nat (nat_of_ascii c) - 48)%Z.
Proof. intros H. each_digit H; (split; [reflexivity | vm_compute; discriminate]). Qed.

Lemma digit_plain (c : ascii) :
  digit c ->
  Ascii.eqb c "_" = false /\ Ascii.eqb "." c = false /\
  Ascii.eqb (Num.lower c) "e" = false /\ Num.lower c = c /\
  c <> "+"%char /\ c <> "-"%char /\ c <> "i"%char /\ c <> "n"%char.
Proof. intros H. each_digit H; repeat split; discriminate. Qed.

Lemma lstrip_digits (s : string) : all_digits s -> Num.lstrip s = s.
Proof.
  destruct s as [|c s]; [reflexivity|]. intros [Hc _]. simpl.
  now rewrite (digit_not_space c Hc).
Qed.

Lemma rstrip_digits (s : string) : all_digits s -> Num.rstrip s = s.
Proof.
  induction s as [|c s IH]; [reflexivity|]. intros [Hc Hs].
  cbn [Num.rstrip]. rewrite (IH Hs), (digit_not_space c Hc).
  now destruct s.
Qed.

Lemma lowercase_digits (s : string) : all_digits s -> Num.lowercase s = s.
Proof.
  induction s as [|c s IH]; [reflexivity|]. intros [Hc Hs]. simpl.
  rewrite (IH Hs). now destruct (digit_plain c Hc) as [_ [_ [_ [-> _]]]].
Qed.

Lemma cut_digits (p : ascii -> bool) (s : string) :
  (forall c, digit c -> p c = false) -> all_digits s -> Num.cut p s = (s, None).
Proof.
  intros Hp. induction s as [|c s IH]; [reflexivity|]. intros [Hc Hs]. simpl.
  now rewrite (Hp c Hc), (IH Hs).
Qed.

Lemma digitpart_from_digits (prev : bool) (s : string) :
  all_digits s -> (prev = true \/ s <> EmptyString) ->
  exists ds, Num.digitpart_from prev s = Some ds /\
             Forall (fun d => 0 <= d)%Z ds /\
             forall acc, fold_left (fun a d => 10 * a + d)%Z ds acc = decimal_from acc s.
Proof.
  revert prev; induction s as [|c s IH]; intros prev Hs Hne.
  - destruct Hne as [-> | Hne]; [|contradiction]. exists []. simpl. now repeat split.
  - destruct Hs as [Hc Hs]. simpl.
    destruct (digit_plain c Hc) as [-> _].
    destruct (digit_val_digit c Hc) as [-> Hpos].
    destruct (IH true Hs (or_introl eq_refl)) as [ds [-> [Hds Hval]]].
    eexists. split; [reflexivity|]. split; [now constructor|].
    intros acc. cbn [fold_left decimal_from]. apply Hval.
Qed.

Lemma fold_digits_nonneg (ds : list Z) (acc : Z) :
  Forall (fun d => 0 <= d)%Z ds -> (0 <= acc)%Z ->
  (0 <= fold_left (fun a d => 10 * a + d)%Z ds acc)%Z.
Proof.
  revert acc; induction ds as [|d ds IH]; intros acc Hds Hacc; cbn [fold_left];
    [assumption|].
  inversion Hds; subst. apply IH; [assumption | lia].
Qed.

Lemma of_decimal_integer (m : Z) : (0 <= m)%Z -> Num.of_decimal false m 0 = Num.of_Z m.
Proof.
  intros Hm. destruct m as [|p|p]; [reflexivity | | lia].
  unfold Num.of_decimal, Num.of_Z. now rewrite Z.pow_0_r, Z.mul_1_r.
Qed.

(** The decimal parser on a non-empty string of digits gives the double
    nearest to the number the digits denote. *)
Lemma float_of_digits (s : string) :
  all_digits s -> s <> EmptyString ->
  Num.float_of_string s = Some (Num.of_Z (decimal s)).
Proof.
  intros Hs Hne. unfold Num.float_of_string, Num.strip.
  rewrite (lstrip_digits s Hs), (rstrip_digits s Hs).
  destruct s as [|c s]; [contradiction|]. pose proof Hs as [Hc Hs'].
  destruct (digit_plain c Hc) as [_ [_ [_ [Hlow [Hplus [Hminus [Hi Hn]]]]]]].
  assert (Hsign : Num.split_sign (String c s) = (false, String c s)).
  { unfold Num.split_sign.
    destruct c as [[] [] [] [] [] [] [] []]; try reflexivity; congruence. }
  rewrite Hsign, (lowercase_digits _ Hs).
  assert (Hinf : (String c s =? "inf") = false /\ (String c s =? "infinity") = false
                 /\ (String c s =? "nan") = false).
  { repeat split; apply String.eqb_neq; congruence. }
  destruct Hinf as [-> [-> ->]]. cbn [orb].
  rewrite (cut_digits _ (String c s)
             (fun c Hc => proj1 (proj2 (proj2 (digit_plain c Hc)))) Hs).
  unfold Num.number.
  rewrite (cut_digits _ (String c s)
             (fun c Hc => proj1 (proj2 (digit_plain c Hc))) Hs).
  unfold Num.digitpart.
  destruct (digitpart_from_digits false (String c s) Hs)
    as [ds [-> [Hds Hval]]]; [right; discriminate|].
  cbn [option_map List.length Z.of_nat]. rewrite app_nil_r.
  unfold Num.value_of. rewrite Hval, Z.sub_0_r. fold (decimal (String c s)).
  rewrite of_decimal_integer; [reflexivity|].
  unfold decimal. rewrite <- Hval. apply fold_digits_nonneg; [assumption | lia].
Qed.

Lemma rstrip_head (c : ascii) (s : string) :
  Num.is_space c = false -> exists t, Num.rstrip (String c s) = String c t.
Proof.
  intros Hc. cbn [Num.rstrip]. rewrite Hc.
  destruct (Num.rstrip s); eexists; reflexivity.
Qed.

(** A literal that starts with one of the separators 28 to 31 is
    refused by the decimal parser. *)
Lemma float_of_separator (c : ascii) (rest : string) :
  28 <= nat_of_ascii c <= 31 ->
  Num.float_of_string (String c rest) = None.
Proof.
  intros Hc.
  assert (Hcases : c = ascii_of_nat 28 \/ c = ascii_of_nat 29 \/
                   c = ascii_of_nat 30 \/ c = ascii_of_nat 31).
  { rewrite <- (ascii_nat_embedding c).
    destruct Hc as [Hlo Hhi].
    assert (H : nat_of_ascii c = 28 \/ nat_of_ascii c = 29 \/
                nat_of_ascii c = 30 \/ nat_of_ascii c = 31) by lia.
    destruct H as [-> | [-> | [-> | ->]]]; tauto. }
  assert (Hsp : Num.is_space c = false)
    by (destruct Hcases as [-> | [-> | [-> | ->]]]; reflexivity).
  unfold Num.float_of_string, Num.strip. cbn [Num.lstrip]. rewrite Hsp.
  destruct (rstrip_head c rest Hsp) as [t ->].
  assert (Hsign : Num.split_sign (String c t) = (false, String c t))
    by (destruct Hcases as [-> | [-> | [-> | ->]]]; reflexivity).
  rewrite Hsign. cbn [Num.lowercase].
  assert (Hlow : Num.lower c = c)
    by (destruct Hcases as [-> | [-> | [-> | ->]]]; reflexivity).
  rewrite Hlow.
  assert (Hinf : (String c (Num.lowercase t) =? "inf") = false /\
                 (String c (Num.lowercase t) =? "infinity") = false /\
                 (String c (Num.lowercase t) =? "nan") = false).
  { repeat split; apply String.eqb_neq; intros E; injection E as E _;
      destruct Hcases as [-> | [-> | [-> | ->]]]; discriminate E. }
  destruct Hinf as [-> [-> ->]]. cbn [orb].
  cbn [Num.cut]. rewrite Hlow.
  assert (He : Ascii.eqb c "e" = false)
    by (destruct Hcases as [-> | [-> | [-> | ->]]]; reflexivity).
  rewrite He.
  destruct (Num.cut (fun c0 => Ascii.eqb (Num.lower c0) "e") t) as [mant ex].
  unfold Num.number. cbn [Num.cut].
  assert (Hdot : Ascii.eqb "." c = false)
    by (destruct Hcases as [-> | [-> | [-> | ->]]]; reflexivity).
  rewrite Hdot.
  assert (Hdp : forall u, Num.digitpart (String c u) = None).
  { intros u. unfold Num.digitpart. cbn [Num.digitpart_from].
    destruct Hcases as [-> | [-> | [-> | ->]]]; reflexivity. }
  destruct (Num.cut (Ascii.eqb ".") mant) as [ip [fp|]].
  - destruct fp; rewrite Hdp; reflexivity.
  - rewrite Hdp. reflexivity.
Qed.

Lemma digitpart_from_length (prev : bool) (s : string) (ds : list Z) :
  all_digits s -> Num.digitpart_from prev s = Some ds ->
  List.length ds = String.length s.
Proof.
  revert prev ds; induction s as [|c s IH]; intros prev ds Hs H.
  - cbn [Num.digitpart_from] in H. destruct prev; [|discriminate].
    now injection H as <-.
  - destruct Hs as [Hc Hs]. cbn [Num.digitpart_from] in H.
    destruct (digit_plain c Hc) as [E _]. rewrite E in H.
    destruct (digit_val_digit c Hc) as [Ev _]. rewrite Ev in H.
    destruct (Num.digitpart_from true s) as [ds'|] eqn:Hds; [|discriminate].
    injection H as <-. cbn [List.length String.length]. f_equal.
    now apply (IH true).
Qed.

(** The integer parser on a non-empty string of at most 4300 digits
    gives the number the digits denote. *)
Lemma int_of_digits (s : string) :
  all_digits s -> s <> EmptyString -> String.length s <= 4300 ->
  Num.int s = Some (decimal s).
Proof.
  intros Hs Hne Hlen. unfold Num.int, Num.strip.
  rewrite (lstrip_digits s Hs), (rstrip_digits s Hs).
  destruct s as [|c s]; [contradiction|]. pose proof Hs as [Hc Hs'].
  destruct (digit_plain c Hc) as [_ [_ [_ [_ [Hplus [Hminus _]]]]]].
  assert (Hsign : Num.split_sign (String c s) = (false, String c s)).
  { unfold Num.split_sign.
    destruct c as [[] [] [] [] [] [] [] []]; try reflexivity; congruence. }
  rewrite Hsign. unfold Num.digitpart.
  destruct (digitpart_from_digits false (String c s) Hs)
    as [ds [Hds [_ Hval]]]; [right; discriminate|].
  rewrite Hds. rewrite (digitpart_from_length false _ ds Hs Hds).
  unfold Num.int_max_str_digits.
  destruct (Nat.ltb_spec 4300 (String.length (String c s))) as [Hgt|_]; [lia|].
  unfold Num.value_of. now rewrite Hval.
Qed.

Lemma all_digits_app (a b : string) :
  all_digits (a ++ b) -> all_digits a /\ all_digits b.
Proof.
  induction a as [|c a IH]; cbn [String.append all_digits]; [tauto|].
  intros [Hc H]. destruct (IH H). tauto.
Qed.

(** A string of digits holds none of the decade keywords. *)
Lemma digits_no_keyword (raw key : string) (y : Z) :
  all_digits raw -> In (key, y) decade_table -> ~ Occurs key raw.
Proof.
  intros Hd Hin [pre [post E]]. rewrite E in Hd.
  apply all_digits_app in Hd. destruct Hd as [_ Hd].
  apply all_digits_app in Hd. destruct Hd as [Hd _].
  cbv [decade_table In] in Hin.
  repeat (destruct Hin as [Hin | Hin];
          [injection Hin as <- _; cbv [all_digits] in Hd;
           repeat match type of Hd with
                  | _ /\ _ =>
                      let H := fresh "H" in
                      destruct Hd as [H Hd];
                      try (solve [cbv [digit In] in H;
                                  repeat (destruct H as [H | H]; [discriminate H|]);
                                  exact H])
                  end |]).
  exact Hin.
Qed.

End NumFacts.

Section Price.
Import Str Spec NumFacts.

(** C5. The asking price "FREE" becomes missing; any other display
    string loses its commas, then its first character, and what remains
    goes to the decimal parser; when what remains is a string of digits
    the result is the double of the number they denote; "$1,250" becomes
    1250.0 and "$99" becomes 99.0.  When nothing remains, or when what
    remains starts with one of the separators 28 to 31, the parser
    refuses it and the error is not caught. *)
Theorem clean_asking_price_rule :
  clean_asking_price "FREE" = Ok Num.nan /\
  (forall s, s <> "FREE" ->
     clean_asking_price s =
     match Num.float_of_string (drop_first (remove_char "," s)) with
     | Some x => Ok x
     | None => Raise ValueError
     end) /\
  (forall s c ds,
     s <> "FREE" -> remove_char "," s = String c ds ->
     all_digits ds -> ds <> EmptyString ->
     clean_asking_price s = Ok (Num.of_Z (decimal ds))) /\
  (drop_first (remove_char "," "$1,250") = "1250" /\
   clean_asking_price "$1,250" = Ok (Num.of_Z 1250) /\
   is_integer (Num.of_Z 1250) 1250) /\
  (drop_first (remove_char "," "$99") = "99" /\
   clean_asking_price "$99" = Ok (Num.of_Z 99) /\
   is_integer (Num.of_Z 99) 99) /\
  (forall s, s <> "FREE" -> drop_first (remove_char "," s) = EmptyString ->
             clean_asking_price s = Raise ValueError) /\
  (forall s c rest,
     s <> "FREE" -> drop_first (remove_char "," s) = String c rest ->
     28 <= nat_of_ascii c <= 31 ->
     clean_asking_price s = Raise ValueError).
Proof.
  assert (Hrule : forall s, s <> "FREE" ->
            clean_asking_price s =
            match Num.float_of_string (drop_first (remove_char "," s)) with
            | Some x => Ok x
            | None => Raise ValueError
            end).
  { intros s Hs. unfold clean_asking_price, price_to_float.
    destruct (String.eqb_spec s "FREE") as [E|_]; [contradiction | reflexivity]. }
  split; [reflexivity|]. split; [exact Hrule|]. split; [|split; [|split; [|split]]].
  - intros s c ds Hs Hrm Hds Hne. rewrite (Hrule s Hs), Hrm. cbn [drop_first].
    now rewrite (float_of_digits ds Hds Hne).
  - split; [reflexivity|]. split; [vm_compute; reflexivity|].
    eexists _, _. split; [vm_compute; reflexivity|].
    split; vm_compute; [discriminate | reflexivity].
  - split; [reflexivity|]. split; [vm_compute; reflexivity|].
    eexists _, _. split; [vm_compute; reflexivity|].
    split; vm_compute; [discriminate | reflexivity].
  - intros s Hs Hrm. rewrite (Hrule s Hs), Hrm. reflexivity.
  - intros s c rest Hs Hrm Hc. rewrite (Hrule s Hs), Hrm.
    now rewrite (float_of_separator c rest Hc).
Qed.

Lemma clean_asking_price_rule_witness :
  clean_asking_price "$12,345,678" = Ok (Num.of_Z 12345678).
Proof.
  apply (proj1 (proj2 (proj2 clean_asking_price_rule)) "$12,345,678" "$"%char "12345678").
  - discriminate.
  - reflexivity.
  - cbv [all_digits digit In]. tauto.
  - discriminate.
Defined.

End Price.

(* ------------------------------------------------------------------ *)
(** ** Facts about frames *)

Module FrameFacts.
Import Spec.

Lemma bind_Ok {A B : Type} (m : result A) (k : A -> result B) (b : B) :
  bind m k = Ok b -> exists a, m = Ok a /\ k a = Ok b.
Proof.
  destruct m as [a|e]; simpl; [|discriminate]. intros H. now exists a.
Qed.

Lemma mapM_Ok {A B : Type} (f : A -> result B) (l : list A) (l' : list B) :
  mapM f l = Ok l' -> Forall2 (fun a b => f a = Ok b) l l'.
Proof.
  revert l'; induction l as [|a l IH]; intros l' H; simpl in H.
  - injection H as <-. constructor.
  - apply bind_Ok in H. destruct H as [b [Hb H]].
    apply bind_Ok in H. destruct H as [bs [Hbs H]].
    injection H as <-. constructor; [assumption | now apply IH].
Qed.

Lemma mapM_length {A B : Type} (f : A -> result B) (l : list A) (l' : list B) :
  mapM f l = Ok l' -> List.length l' = List.length l.
Proof.
  intros H. apply mapM_Ok in H. induction H; simpl; congruence.
Qed.

Lemma filter_twice {A : Type} (f g : A -> bool) (l : list A) :
  filter g (filter f l) = filter (fun x => f x && g x) l.
Proof.
  induction l as [|x l IH]; simpl; [reflexivity|].
  destruct (f x); simpl; [destruct (g x)|]; now rewrite IH.
Qed.

Lemma drop_rows_kept (df : list Clean.row) : drop_rows df = filter kept df.
Proof.
  unfold drop_rows. rewrite !filter_twice. apply filter_ext.
  intros r. unfold kept. now rewrite !andb_assoc.
Qed.

Lemma kept_passes (r : Clean.row) : kept r = true -> passes_filters r.
Proof.
  unfold kept, passes_filters. rewrite !andb_true_iff.
  intros [[[Hy Ha] Hlo] Hhi]. repeat split; try assumption.
  - destruct (Clean.Model_Year r); [discriminate | discriminate Hy].
  - destruct (Clean.Asking r); discriminate.
Qed.

Lemma df_format_rows (df : list Clean.row) :
  map Feature.index (Feature.rows (df_format df)) = map Clean.index (filter kept df) /\
  map Feature.Final (Feature.rows (df_format df)) = map Clean.Final (filter kept df) /\
  map Feature.Asking (Feature.rows (df_format df)) = map Clean.Asking (filter kept df) /\
  map Feature.Model_Year (Feature.rows (df_format df))
  = map Clean.Model_Year (filter kept df).
Proof.
  unfold df_format. cbn [Feature.rows]. rewrite drop_rows_kept, !map_map.
  repeat split.
Qed.

Lemma NoDup_index_unique (df : list Clean.row) (r r' : Clean.row) :
  NoDup (map Clean.index df) -> In r df -> In r' df ->
  Clean.index r = Clean.index r' -> r = r'.
Proof.
  induction df as [|x df IH]; intros Hnd Hr Hr' E; [destruct Hr|].
  simpl in Hnd. inversion Hnd as [|? ? Hx Hnd']; subst.
  destruct Hr as [-> | Hr], Hr' as [-> | Hr'].
  - reflexivity.
  - exfalso. apply Hx. rewrite E. now apply in_map.
  - exfalso. apply Hx. rewrite <- E. now apply in_map.
  - now apply IH.
Qed.

Lemma from_dict_rows_index (i : nat) (ns ds cs aa fs : list string) (rows : list Raw.row) :
  Pandas.from_dict_rows i ns ds cs aa fs = Ok rows ->
  map Raw.index rows = seq i (List.length rows).
Proof.
  revert i ds cs aa fs rows.
  induction ns as [|n ns IH]; intros i ds cs aa fs rows H;
    destruct ds, cs, aa, fs; simpl in H; try discriminate.
  - injection H as <-. reflexivity.
  - apply bind_Ok in H. destruct H as [rest [Hrest H]].
    injection H as <-. simpl. f_equal. now apply IH in Hrest.
Qed.

Lemma add_brand_index (l l' : list Raw.row) :
  mapM add_brand l = Ok l' -> map Raw.index l' = map Raw.index l.
Proof.
  intros H. apply mapM_Ok in H.
  induction H as [|r r' l l' Hr _ IH]; simpl; [reflexivity|].
  f_equal; [|assumption].
  unfold add_brand in Hr. apply bind_Ok in Hr.
  destruct Hr as [b [_ Hr]]. injection Hr as <-. reflexivity.
Qed.

Lemma NoDup_map_filter {A : Type} (g : A -> nat) (f : A -> bool) (l : list A) :
  NoDup (map g l) -> NoDup (map g (filter f l)).
Proof.
  induction l as [|x l IH]; simpl; intros H; [constructor|].
  inversion H as [|? ? Hx Hl]; subst.
  destruct (f x); simpl; [|now apply IH].
  constructor; [|now apply IH].
  intros Hin. apply Hx. apply in_map_iff in Hin.
  destruct Hin as [y [Hy Hin]]. apply filter_In in Hin.
  apply in_map_iff. exists y. tauto.
Qed.

Lemma branded_rows_NoDup (d : Dict.t) (rows : list Raw.row) :
  branded_rows d = Ok rows -> NoDup (map Raw.index rows).
Proof.
  unfold branded_rows, Pandas.from_dict. intros H.
  apply bind_Ok in H. destruct H as [df [Hdf H]].
  rewrite (add_brand_index _ _ H), (from_dict_rows_index _ _ _ _ _ _ _ Hdf).
  apply seq_NoDup.
Qed.

Lemma to_df_mask (vc : list string -> list string) (d : Dict.t) (df : list Raw.row) :
  to_df vc d = Ok df ->
  exists rows,
    branded_rows d = Ok rows /\
    df = filter (fun r => in_list (Raw.Brand r) (firstn 20 (vc (map Raw.Brand rows))))
           rows.
Proof.
  unfold to_df, branded_rows. intros H.
  apply bind_Ok in H. destruct H as [df0 [H0 H]].
  apply bind_Ok in H. destruct H as [rows [H1 H]].
  injection H as <-. exists rows. rewrite H0. simpl. now split.
Qed.

Lemma assemble_columns (df : list Raw.row) (ys : list (option Z)) (cs : list string)
  (fs aa : list Num.float) :
  List.length ys = List.length df -> List.length cs = List.length df ->
  List.length fs = List.length df -> List.length aa = List.length df ->
  map Clean.index (assemble df ys cs fs aa) = map Raw.index df /\
  map Clean.Brand (assemble df ys cs fs aa) = map Raw.Brand df.
Proof.
  revert ys cs fs aa.
  induction df as [|r df IH]; intros ys cs fs aa Hy Hc Hf Ha;
    destruct ys, cs, fs, aa; try discriminate; simpl; [now split|].
  injection Hy as Hy. injection Hc as Hc. injection Hf as Hf. injection Ha as Ha.
  destruct (IH ys cs fs aa Hy Hc Hf Ha) as [-> ->]. now split.
Qed.

Lemma main_frames (vc : list string -> list string) (d : Dict.t)
  (full : list Clean.row) (feat : Feature.table) :
  main vc d = Ok (full, feat) ->
  exists df,
    to_df vc d = Ok df /\
    map Clean.index full = map Raw.index df /\
    map Clean.Brand full = map Raw.Brand df /\
    feat = df_format full.
Proof.
  unfold main. intros H.
  apply bind_Ok in H. destruct H as [df [Hdf H]].
  apply bind_Ok in H. destruct H as [ys [Hys H]].
  apply bind_Ok in H. destruct H as [fs [Hfs H]].
  apply bind_Ok in H. destruct H as [aa [Haa H]].
  injection H as <- <-. exists df.
  apply mapM_length in Hys, Hfs, Haa. rewrite length_map in Hys.
  destruct (assemble_columns df ys (map (fun r => get_model_color (Raw.Name r)) df)
              fs aa Hys (length_map _ _) Hfs Haa) as [Hi Hb].
  repeat split; assumption.
Qed.

Lemma main_index_NoDup (vc : list string -> list string) (d : Dict.t)
  (full : list Clean.row) (feat : Feature.table) :
  main vc d = Ok (full, feat) -> NoDup (map Clean.index full).
Proof.
  intros H. destruct (main_frames vc d full feat H) as [df [Hdf [Hi _]]].
  rewrite Hi. destruct (to_df_mask vc d df Hdf) as [rows [Hrows ->]].
  apply NoDup_map_filter. now apply (branded_rows_NoDup d).
Qed.

End FrameFacts.

(* ------------------------------------------------------------------ *)
(** ** Errors of the year normalisation *)

Section Unrecoverable.
Import Str StrFacts Spec FrameFacts.

Lemma mapM_raise {A B : Type} (f : A -> result B) (l : list A) (e : exn) :
  (forall a e', f a = Raise e' -> e' = e) ->
  (exists a, In a l /\ f a = Raise e) ->
  mapM f l = Raise e.
Proof.
  intros Honly. induction l as [|x l IH]; intros [a [Hin Ha]]; [destruct Hin|].
  simpl. destruct (f x) as [b|e'] eqn:Hx; simpl.
  - destruct Hin as [-> | Hin]; [congruence|].
    rewrite IH; [reflexivity | now exists a].
  - now rewrite (Honly x e' Hx).
Qed.

Lemma clean_model_year_raises (o : option string) (e : exn) :
  clean_model_year o = Raise e -> e = ValueError.
Proof.
  unfold clean_model_year. destruct o as [row|]; [|discriminate].
  repeat match goal with
         | |- context [if contains ?k row then _ else _] =>
             destruct (contains k row); [discriminate|]
         end.
  destruct (Num.int row); [discriminate|]. congruence.
Qed.

Lemma main_year_error (vc : list string -> list string) (d : Dict.t)
  (df : list Raw.row) (r : Raw.row) :
  to_df vc d = Ok df -> In r df ->
  clean_model_year (get_model_year (Raw.Name r)) = Raise ValueError ->
  main vc d = Raise ValueError.
Proof.
  intros Hdf Hr Hraise. unfold main. rewrite Hdf. cbn [bind].
  rewrite (mapM_raise clean_model_year _ ValueError clean_model_year_raises);
    [reflexivity|].
  exists (get_model_year (Raw.Name r)). split; [|exact Hraise].
  apply in_map_iff. now exists r.
Qed.

(** C3. A raw year text returned by the extraction that is not a pure
    digit sequence and contains none of the nine decade keywords makes
    the normalisation fail with the integer parser's error instead of
    returning missing, and the error ends [main] as soon as one kept row
    has such a title; so it is for the titles that yield "'59", "40s",
    "1940s" and "20s". *)
Theorem clean_model_year_parse_error :
  (forall title raw,
      get_model_year title = Some raw ->
      ~ all_digits raw ->
      (forall key y, In (key, y) decade_table -> ~ Occurs key raw) ->
      clean_model_year (Some raw) = Raise ValueError) /\
  (forall vc d df r raw,
      to_df vc d = Ok df -> In r df ->
      get_model_year (Raw.Name r) = Some raw ->
      ~ all_digits raw ->
      (forall key y, In (key, y) decade_table -> ~ Occurs key raw) ->
      main vc d = Raise ValueError) /\
  (get_model_year "Gibson Les Paul '59" = Some "'59" /\
   clean_model_year (Some "'59") = Raise ValueError /\
   main Pandas.value_counts_stable Sample.vintage = Raise ValueError) /\
  (get_model_year "Kay 40s Archtop" = Some "40s" /\
   clean_model_year (Some "40s") = Raise ValueError) /\
  (get_model_year "Gibson ES-150 1940s" = Some "1940s" /\
   clean_model_year (Some "1940s") = Raise ValueError) /\
  (get_model_year "Regal 20s Parlor" = Some "20s" /\
   clean_model_year (Some "20s") = Raise ValueError).
Proof.
  assert (Hgen : forall title raw,
             get_model_year title = Some raw ->
             ~ all_digits raw ->
             (forall key y, In (key, y) decade_table -> ~ Occurs key raw) ->
             clean_model_year (Some raw) = Raise ValueError).
  { intros title raw Hget Hnd Hno.
    destruct (get_model_year_shape title raw Hget) as [k Hk].
    exact (pattern_parse_error k raw Hk Hnd Hno). }
  split; [exact Hgen|]. split.
  - intros vc d df r raw Hdf Hr Hget Hnd Hno.
    apply (main_year_error vc d df r Hdf Hr).
    rewrite Hget. exact (Hgen _ raw Hget Hnd Hno).
  - repeat split; vm_compute; reflexivity.
Qed.

Lemma clean_model_year_parse_error_witness :
  clean_model_year (Some "'59") = Raise ValueError.
Proof.
  apply (proj1 clean_model_year_parse_error "Gibson Les Paul '59" "'59").
  - reflexivity.
  - simpl. unfold digit. simpl. intros [H _].
    repeat (destruct H as [H | H]; [discriminate H |]). exact H.
  - intros key y Hin. apply contains_false.
    simpl in Hin.
    repeat (destruct Hin as [Hin | Hin]; [injection Hin as <- _; reflexivity |]).
    destruct Hin.
Defined.

End Unrecoverable.

(* ------------------------------------------------------------------ *)
(** ** Feature-table filtering *)

Section FeatureRows.
Import Spec FrameFacts.

(** C6. The feature table holds, in order, the rows of the cleaned
    table that pass the four masks.  Every row of the feature table
    comes from a row of the cleaned
    table whose year and asking price are present and whose final price
    lies strictly between 30 and 40000; a row of the full cleaned table
    that fails these conditions has no row in the feature table built by
    [main], while the full table still holds it.  On the sample, the sale
    at 25 dollars, the one at exactly 30 and the one at exactly 40000 are
    in the full table and not in the feature table. *)
Theorem feature_table_filter :
  (forall df,
      map Feature.index (Feature.rows (df_format df))
      = map Clean.index (filter kept df)) /\
  (forall df fr,
      In fr (Feature.rows (df_format df)) ->
      exists r,
        In r df /\ passes_filters r /\
        Clean.index r = Feature.index fr /\
        Clean.Final r = Feature.Final fr /\
        Clean.Asking r = Feature.Asking fr /\
        Clean.Model_Year r = Feature.Model_Year fr) /\
  (forall vc d full feat r,
      main vc d = Ok (full, feat) ->
      In r full -> ~ passes_filters r ->
      ~ In (Clean.index r) (map Feature.index (Feature.rows feat))) /\
  (main Pandas.value_counts_stable Sample.sales = Ok (Sample.cleaned, Sample.features) /\
   map Clean.index Sample.cleaned = [0; 1; 2; 3; 4; 5] /\
   map Clean.Final Sample.cleaned
   = map Num.of_Z [1100; 25; 450; 300; 40000; 30]%Z /\
   In Sample.cheap_sale Sample.cleaned /\
   map Feature.index (Feature.rows Sample.features) = [0]).
Proof.
  split; [|split; [|split]].
  - intros df. exact (proj1 (df_format_rows df)).
  - intros df fr Hfr. unfold df_format in Hfr. cbn [Feature.rows] in Hfr.
    apply in_map_iff in Hfr. destruct Hfr as [r [<- Hr]].
    rewrite drop_rows_kept in Hr. apply filter_In in Hr. destruct Hr as [Hr Hk].
    exists r. cbn. repeat split; try assumption; now apply kept_passes.
  - intros vc d full feat r Hmain Hr Hfail Hin.
    pose proof (main_index_NoDup vc d full feat Hmain) as Hnd.
    destruct (main_frames vc d full feat Hmain) as [df [_ [_ [_ ->]]]].
    rewrite (proj1 (df_format_rows full)) in Hin.
    apply in_map_iff in Hin. destruct Hin as [r' [E Hr']].
    apply filter_In in Hr'. destruct Hr' as [Hr' Hk].
    assert (r' = r) by now apply (NoDup_index_unique full).
    subst r'. apply Hfail. now apply kept_passes.
  - repeat split; try (vm_compute; reflexivity).
    vm_compute. right. left. reflexivity.
Qed.

Lemma feature_table_filter_witness :
  ~ In 1 (map Feature.index (Feature.rows Sample.features)).
Proof.
  apply (proj1 (proj2 (proj2 feature_table_filter)) Pandas.value_counts_stable Sample.sales
           Sample.cleaned Sample.features Sample.cheap_sale).
  - vm_compute. reflexivity.
  - vm_compute. right. left. reflexivity.
  - intros [_ [_ [H _]]]. vm_compute in H. discriminate H.
Defined.

(** C9. The row filters are idempotent: filtering an already filtered
    table removes nothing, every row that passed once satisfies each
    filter predicate, and the feature table built from the filtered table
    is the one built from the original. *)
Theorem drop_rows_idempotent (df : list Clean.row) :
  drop_rows (drop_rows df) = drop_rows df /\
  (forall r, In r (drop_rows df) ->
             Pandas.isfinite_year (Clean.Model_Year r) = true /\
             Num.isfinite (Clean.Asking r) = true /\
             Num.gt (Clean.Final r) (Num.of_Z 30) = true /\
             Num.lt (Clean.Final r) (Num.of_Z 40000) = true) /\
  (forall r, In r (drop_rows df) -> passes_filters r) /\
  df_format (drop_rows df) = df_format df.
Proof.
  assert (Hall : forall r, In r (drop_rows df) -> kept r = true).
  { intros r Hr. rewrite drop_rows_kept in Hr. now apply filter_In in Hr. }
  assert (Hid : drop_rows (drop_rows df) = drop_rows df).
  { rewrite (drop_rows_kept (drop_rows df)).
    apply forallb_filter_id. apply forallb_forall. exact Hall. }
  split; [exact Hid|]. split; [|split].
  - intros r Hr. apply Hall in Hr. unfold kept in Hr.
    rewrite !andb_true_iff in Hr. tauto.
  - intros r Hr. apply kept_passes. now apply Hall.
  - unfold df_format. now rewrite Hid.
Qed.

End FeatureRows.

(* ------------------------------------------------------------------ *)
(** ** Record extractor *)

Module ScrapeFacts.
Import Scrape.

Lemma name_loop (name : string) (l : list nat) (d : Dict.t) :
  let d' := fold_left (fun d _ => Dict.append_Name d name) l d in
  Dict.Name d' = (Dict.Name d ++ repeat name (List.length l))%list /\
  Dict.Date d' = Dict.Date d /\ Dict.Condition d' = Dict.Condition d /\
  Dict.Asking d' = Dict.Asking d /\ Dict.Final d' = Dict.Final d.
Proof.
  revert d; induction l as [|i l IH]; intros d; simpl.
  - rewrite app_nil_r. repeat split.
  - destruct (IH (Dict.append_Name d name)) as [-> [-> [-> [-> ->]]]]. simpl.
    rewrite <- app_assoc. repeat split.
Qed.

Lemma date_loop (l : list string) (d : Dict.t) :
  let d' := fold_left Dict.append_Date l d in
  Dict.Name d' = Dict.Name d /\
  Dict.Date d' = (Dict.Date d ++ l)%list /\ Dict.Condition d' = Dict.Condition d /\
  Dict.Asking d' = Dict.Asking d /\ Dict.Final d' = Dict.Final d.
Proof.
  revert d; induction l as [|x l IH]; intros d; simpl.
  - rewrite app_nil_r. repeat split.
  - destruct (IH (Dict.append_Date d x)) as [-> [-> [-> [-> ->]]]]. simpl.
    rewrite <- app_assoc. repeat split.
Qed.

Lemma condition_loop (l : list string) (d : Dict.t) :
  let d' := fold_left Dict.append_Condition l d in
  Dict.Name d' = Dict.Name d /\
  Dict.Date d' = Dict.Date d /\ Dict.Condition d' = (Dict.Condition d ++ l)%list /\
  Dict.Asking d' = Dict.Asking d /\ Dict.Final d' = Dict.Final d.
Proof.
  revert d; induction l as [|x l IH]; intros d; simpl.
  - rewrite app_nil_r. repeat split.
  - destruct (IH (Dict.append_Condition d x)) as [-> [-> [-> [-> ->]]]]. simpl.
    rewrite <- app_assoc. repeat split.
Qed.

(** The price loop entered with an odd counter sends the prices at
    offsets 0, 2, 4, ... to [Asking] and the others to [Final]; entered
    with an even counter it does the opposite. *)
Lemma price_loop_parity (prices : list string) (counter : Z) (d : Dict.t) :
  let d' := price_loop prices counter d in
  Dict.Name d' = Dict.Name d /\ Dict.Date d' = Dict.Date d /\
  Dict.Condition d' = Dict.Condition d /\
  exists asking final,
    Dict.Asking d' = (Dict.Asking d ++ asking)%list /\
    Dict.Final d' = (Dict.Final d ++ final)%list /\
    if (counter mod 2 =? 1)%Z
    then (forall k, nth_error asking k = nth_error prices (2 * k)) /\
         (forall k, nth_error final k = nth_error prices (2 * k + 1))
    else (forall k, nth_error final k = nth_error prices (2 * k)) /\
         (forall k, nth_error asking k = nth_error prices (2 * k + 1)).
Proof.
  revert counter d; induction prices as [|p prices IH]; intros counter d;
    cbn [price_loop].
  - repeat split. exists [], []. rewrite !app_nil_r. repeat split.
    destruct (counter mod 2 =? 1)%Z; split; intros k;
      now rewrite !nth_error_nil.
  - destruct (counter mod 2 =? 1)%Z eqn:Hc.
    + assert (Hn : ((counter + 1) mod 2 =? 1)%Z = false).
      { apply Z.eqb_eq in Hc. apply Z.eqb_neq. clear IH. Z.div_mod_to_equations. lia. }
      destruct (IH (counter + 1)%Z (Dict.append_Asking d p))
        as [-> [-> [-> [asking [final [Ha [Hf Hk]]]]]]].
      rewrite Hn in Hk. destruct Hk as [Hfk Hak].
      repeat split. exists (p :: asking), final.
      rewrite Ha, Hf. cbn [Dict.append_Asking Dict.Asking Dict.Final].
      rewrite <- app_assoc. repeat split.
      * intros [|k]; [reflexivity|].
        replace (2 * S k) with (S (2 * k + 1)) by lia. cbn [nth_error]. apply Hak.
      * intros k. replace (2 * k + 1) with (S (2 * k)) by lia.
        cbn [nth_error]. apply Hfk.
    + assert (Hn : ((counter + 1) mod 2 =? 1)%Z = true).
      { apply Z.eqb_neq in Hc. apply Z.eqb_eq. clear IH. Z.div_mod_to_equations. lia. }
      destruct (IH (counter + 1)%Z (Dict.append_Final d p))
        as [-> [-> [-> [asking [final [Ha [Hf Hk]]]]]]].
      rewrite Hn in Hk. destruct Hk as [Hak Hfk].
      repeat split. exists asking, (p :: final).
      rewrite Ha, Hf. cbn [Dict.append_Final Dict.Asking Dict.Final].
      rewrite <- app_assoc. repeat split.
      * intros [|k]; [reflexivity|].
        replace (2 * S k) with (S (2 * k + 1)) by lia. cbn [nth_error]. apply Hfk.
      * intros k. replace (2 * k + 1) with (S (2 * k)) by lia.
        cbn [nth_error]. apply Hak.
Qed.

Lemma nth_error_length {A : Type} (l l' : list A) (n : nat) (f : nat -> nat) :
  (forall k, nth_error l k = nth_error l' (f k)) ->
  (forall k, f k < List.length l' <-> k < n) ->
  List.length l = n.
Proof.
  intros H Hf.
  assert (Hlt : forall k, k < List.length l <-> k < n).
  { intros k. rewrite <- Hf, <- !nth_error_Some, H. tauto. }
  destruct (Nat.lt_trichotomy (List.length l) n) as [Hc | [Hc | Hc]];
    [apply Hlt in Hc; lia | assumption | apply Hlt in Hc; lia].
Qed.

End ScrapeFacts.

Section RecordExtractor.
Import Scrape ScrapeFacts Spec.

(** C7. A guitar page showing N >= 1 date entries and a heading adds
    exactly N-1 entries to [Name], each the heading, and the N-1 date
    entries after the first to [Date]; the condition entries after the
    first go to [Condition]; the price at 1-indexed position 2k+1 is the
    k-th new [Asking] entry and the price at position 2k+2 the k-th new
    [Final] entry, with no price left out.  When the page also shows N
    condition entries and 2(N-1) prices, each of the five columns grows by
    exactly N-1. *)
Theorem visit_emits_records (pg : listing) (d : Dict.t) (h : string) :
  let N := List.length (date pg) in
  let prices := price_history_table_price pg in
  1 <= N ->
  heading_1 pg = Some h ->
  exists d',
    visit pg d = Ok d' /\
    Dict.Name d' = (Dict.Name d ++ repeat h (N - 1))%list /\
    Dict.Date d' = (Dict.Date d ++ tl (date pg))%list /\
    List.length (tl (date pg)) = N - 1 /\
    Dict.Condition d' = (Dict.Condition d ++ tl (condition pg))%list /\
    exists asking final,
      Dict.Asking d' = (Dict.Asking d ++ asking)%list /\
      Dict.Final d' = (Dict.Final d ++ final)%list /\
      (forall k, nth_error asking k = odd_position prices k) /\
      (forall k, nth_error final k = even_position prices k) /\
      (List.length (condition pg) = N ->
       List.length prices = 2 * (N - 1) ->
       List.length (tl (condition pg)) = N - 1 /\
       List.length asking = N - 1 /\
       List.length final = N - 1).
Proof.
  intros N prices HN Hh. unfold visit. rewrite Hh.
  destruct (date pg) as [|d0 dates] eqn:Hd; [simpl in N; lia|].
  eexists. split; [reflexivity|].
  destruct (price_loop_parity prices 1
              (fold_left Dict.append_Condition (tl (condition pg))
                 (fold_left Dict.append_Date (tl (d0 :: dates))
                    (fold_left (fun d _ => Dict.append_Name d h)
                       (seq 0 (List.length (d0 :: dates) - 1)) d))))
    as [HpN [HpD [HpC [asking [final [HpA [HpF Hk]]]]]]].
  fold prices.
  destruct (condition_loop (tl (condition pg))
              (fold_left Dict.append_Date (tl (d0 :: dates))
                 (fold_left (fun d _ => Dict.append_Name d h)
                    (seq 0 (List.length (d0 :: dates) - 1)) d)))
    as [HcN [HcD [HcC [HcA HcF]]]].
  destruct (date_loop (tl (d0 :: dates))
              (fold_left (fun d _ => Dict.append_Name d h)
                 (seq 0 (List.length (d0 :: dates) - 1)) d))
    as [HdN [HdD [HdC [HdA HdF]]]].
  destruct (name_loop h (seq 0 (List.length (d0 :: dates) - 1)) d)
    as [HnN [HnD [HnC [HnA HnF]]]].
  rewrite length_seq in HnN.
  rewrite HpN, HcN, HdN, HnN, HpD, HcD, HdD, HnD, HpC, HcC, HdC, HnC.
  rewrite HpA, HcA, HdA, HnA, HpF, HcF, HdF, HnF.
  change ((1 mod 2 =? 1)%Z) with true in Hk. destruct Hk as [Hak Hfk].
  subst N. simpl List.length. simpl tl.
  repeat split; try lia.
  exists asking, final. repeat split; try assumption.
  - destruct (condition pg); simpl in *; lia.
  - apply (nth_error_length asking prices _ (fun k => 2 * k) Hak).
    intros k. simpl in *. lia.
  - apply (nth_error_length final prices _ (fun k => 2 * k + 1) Hfk).
    intros k. simpl in *. lia.
Qed.

Lemma visit_emits_records_witness :
  exists d',
    visit Sample.guitar_page Dict.empty = Ok d' /\
    Dict.Name d' = ["Fender Stratocaster 1965 Black"; "Fender Stratocaster 1965 Black"] /\
    Dict.Date d' = ["1/2/2018"; "1/9/2018"].
Proof.
  destruct (visit_emits_records Sample.guitar_page Dict.empty
              "Fender Stratocaster 1965 Black")
    as [d' [Hv [Hn [Hd _]]]].
  - simpl. lia.
  - reflexivity.
  - exists d'. split; [exact Hv|]. split; [exact Hn | exact Hd].
Defined.

End RecordExtractor.

(* ------------------------------------------------------------------ *)
(** ** Link collector *)

Section LinkCollector.
Import Str StrFacts Scrape.

(** C10. The condition written ['price-guide' and '/guide' in link] is
    true exactly when "/guide" occurs in the link: the first operand is a
    non-empty string, always truthy, so the value of the conjunction is the
    value of the substring test.  A link holding "/guide" is appended to
    the collected links whether or not it holds "price-guide". *)
Theorem keep_link_is_guide_test :
  (forall link, keep_link link = contains "/guide" link) /\
  (forall link, keep_link link = true <-> Occurs "/guide" link) /\
  (forall link collected,
      Occurs "/guide" link ->
      links_loop [Some link] collected = (collected ++ [link])%list) /\
  (~ Occurs "price-guide" Sample.guide_link /\
   keep_link Sample.guide_link = true /\
   links_loop [Some Sample.guide_link] [] = [Sample.guide_link]).
Proof.
  split; [|split; [|split]].
  - intros link. reflexivity.
  - intros link. change (keep_link link) with (contains "/guide" link).
    apply contains_spec.
  - intros link collected H. cbn [links_loop href_str].
    change (keep_link link) with (contains "/guide" link).
    apply contains_spec in H. now rewrite H.
  - split; [|split; reflexivity].
    apply contains_false. reflexivity.
Qed.

Lemma keep_link_is_guide_test_witness :
  links_loop [Some Sample.guide_link] ["https://reverb.com/price-guide/guide/1"]
  = ["https://reverb.com/price-guide/guide/1"; Sample.guide_link].
Proof.
  apply (proj1 (proj2 (proj2 keep_link_is_guide_test)) Sample.guide_link).
  exists "https://reverb.com", "/fender-stratocaster". reflexivity.
Defined.

End LinkCollector.

(* ------------------------------------------------------------------ *)
(** ** Brand frequencies *)

Module CountFacts.
Import Pandas Spec.

Lemma in_list_In (b : string) (l : list string) : in_list b l = true <-> In b l.
Proof.
  unfold in_list. rewrite existsb_exists. split.
  - intros [x [Hx E]]. apply String.eqb_eq in E. now subst.
  - intros H. exists b. split; [assumption | apply String.eqb_refl].
Qed.

Lemma unique_In (b : string) (col : list string) : In b (unique col) <-> In b col.
Proof.
  induction col as [|x col IH]; simpl; [tauto|].
  rewrite filter_In, IH, negb_true_iff, String.eqb_neq.
  destruct (string_dec x b) as [E|E]; [tauto|]. tauto.
Qed.

Lemma unique_NoDup (col : list string) : NoDup (unique col).
Proof.
  induction col as [|x col IH]; simpl; constructor.
  - rewrite filter_In, negb_true_iff, String.eqb_neq. tauto.
  - now apply NoDup_filter.
Qed.

Section Insertion.
Variable cnt : string -> nat.


Lemma insert_by_count_In (b x : string) (l : list string) :
  In b (insert_by_count cnt x l) <-> b = x \/ In b l.
Proof.
  induction l as [|y l IH]; simpl; [intuition congruence|].
  destruct (cnt y <=? cnt x)%nat; simpl; [intuition congruence|].
  rewrite IH. intuition congruence.
Qed.

Lemma insert_by_count_NoDup (x : string) (l : list string) :
  ~ In x l -> NoDup l -> NoDup (insert_by_count cnt x l).
Proof.
  induction l as [|y l IH]; simpl; intros Hx Hl.
  - constructor; [tauto | constructor].
  - destruct (cnt y <=? cnt x)%nat.
    + constructor; assumption.
    + inversion Hl as [|? ? Hy Hl']; subst. constructor.
      * rewrite insert_by_count_In. intros [E | Hin]; [subst; tauto | tauto].
      * apply IH; tauto.
Qed.

Lemma insert_by_count_sorted (x : string) (l : list string) :
  StronglySorted (above cnt) l -> StronglySorted (above cnt) (insert_by_count cnt x l).
Proof.
  induction l as [|y l IH]; simpl; intros Hl.
  - constructor; constructor.
  - inversion Hl as [|? ? Hl' Hy]; subst.
    destruct (cnt y <=? cnt x)%nat eqn:E.
    + apply Nat.leb_le in E. constructor; [assumption|].
      constructor; [exact E|].
      apply Forall_forall. intros z Hz.
      rewrite Forall_forall in Hy. specialize (Hy z Hz).
      unfold Pandas.above in *. lia.
    + apply Nat.leb_gt in E. constructor; [now apply IH|].
      apply Forall_forall. intros z Hz. apply insert_by_count_In in Hz.
      destruct Hz as [-> | Hz].
      * unfold Pandas.above. lia.
      * rewrite Forall_forall in Hy. now apply Hy.
Qed.

Lemma sorted_after (pre : list string) (b : string) (post : list string) :
  StronglySorted (above cnt) (pre ++ b :: post)%list -> Forall (above cnt b) post.
Proof.
  induction pre as [|y pre IH]; simpl; intros H;
    inversion H; subst; [assumption | now apply IH].
Qed.

Lemma sort_by_count (l : list string) :
  NoDup l ->
  let sorted := fold_right (insert_by_count cnt) [] l in
  NoDup sorted /\ (forall b, In b sorted <-> In b l) /\ StronglySorted (above cnt) sorted.
Proof.
  induction l as [|x l IH]; intros Hl; simpl.
  - repeat split; [constructor | tauto | tauto | constructor].
  - inversion Hl as [|? ? Hx Hl']; subst.
    destruct (IH Hl') as [Hnd [Hin Hs]]. repeat split.
    + apply insert_by_count_NoDup; [now rewrite Hin | assumption].
    + rewrite insert_by_count_In, Hin. intuition congruence.
    + rewrite insert_by_count_In, Hin. intuition congruence.
    + now apply insert_by_count_sorted.
Qed.

End Insertion.

Lemma value_counts_stable_spec : value_counts_spec value_counts_stable.
Proof.
  intros col. unfold value_counts_stable.
  destruct (sort_by_count (fun b => count b col) (unique col) (unique_NoDup col))
    as [Hnd [Hin Hs]].
  split; [exact Hnd|]. split.
  - intros b. rewrite Hin. apply unique_In.
  - intros pre b post b' E Hb'. rewrite E in Hs.
    apply sorted_after in Hs. rewrite Forall_forall in Hs. now apply Hs.
Qed.

Lemma firstn_split (n : nat) (b : string) (l : list string) :
  In b (firstn n l) ->
  exists pre post, l = (pre ++ b :: post)%list /\ List.length pre < n.
Proof.
  intros H. destruct (in_split _ _ H) as [pre [post E]].
  exists pre, (post ++ skipn n l)%list. split.
  - rewrite <- (firstn_skipn n l) at 1. rewrite E, <- app_assoc. reflexivity.
  - assert (Hlen : List.length (firstn n l) <= n) by apply firstn_le_length.
    rewrite E, length_app in Hlen. simpl in Hlen. lia.
Qed.

(** A value in the first [n] places of the frequency order has fewer
    than [n] values strictly above it. *)
Lemma first_places (vc : list string -> list string) (n : nat) (b : string)
  (col : list string) :
  value_counts_spec vc ->
  In b (firstn n (vc col)) -> among_most_frequent n b col.
Proof.
  intros Hvc Hb. destruct (Hvc col) as [Hnd [Hin Hs]].
  destruct (firstn_split n b (vc col) Hb) as [pre [post [E Hlen]]].
  assert (Hbc : In b col).
  { apply Hin. rewrite E. apply in_or_app. right. now left. }
  split; [exact Hbc|].
  intros others Hnd' Hmore.
  apply Nat.le_lt_trans with (List.length pre); [|exact Hlen].
  apply NoDup_incl_length; [exact Hnd'|].
  intros b' Hb'. specialize (Hmore b' Hb').
  assert (Hb'c : In b' (vc col)).
  { apply Hin. unfold count in Hmore. apply (count_occ_In string_dec). lia. }
  rewrite E in Hb'c. apply in_app_or in Hb'c.
  destruct Hb'c as [Hpre | [-> | Hpost]]; [assumption | lia |].
  specialize (Hs pre b post b' E Hpost). lia.
Qed.

Lemma ranked_below_not_among (n : nat) (b : string) (col : list string) :
  ranked_below n b col -> ~ among_most_frequent n b col.
Proof.
  intros [others [Hnd [Hlen Hmore]]] [_ Hfew].
  specialize (Hfew others Hnd Hmore). lia.
Qed.

Lemma insert_sorted_In (b x : string) (l : list string) :
  In b (insert_sorted x l) <-> b = x \/ In b l.
Proof.
  induction l as [|y l IH]; simpl; [intuition congruence|].
  destruct (String.leb x y); simpl; [intuition congruence|].
  rewrite IH. intuition congruence.
Qed.

Lemma dummy_columns_In (b : string) (col : list string) :
  In b (dummy_columns col) <-> In b col.
Proof.
  unfold dummy_columns, sort. rewrite <- (unique_In b col).
  induction (unique col) as [|x l IH]; simpl; [tauto|].
  rewrite insert_sorted_In, IH. intuition congruence.
Qed.

End CountFacts.


(* ------------------------------------------------------------------ *)
(** ** The crawl loops *)

Module CrawlFacts.
Import Scrape ScrapeFacts Notions.

Lemma links_loop_filter (hrefs : list (option string)) (collected : list string) :
  links_loop hrefs collected
  = (collected ++ filter keep_link (map href_str hrefs))%list.
Proof.
  revert collected; induction hrefs as [|h hrefs IH]; intros collected;
    cbn [links_loop map filter]; [now rewrite app_nil_r|].
  rewrite IH. destruct (keep_link (href_str h)); [|reflexivity].
  now rewrite <- app_assoc.
Qed.

Lemma pages_loop_all_next (index : nat -> index_page) (todo k : nat)
  (collected : list string) :
  (forall i, i < todo -> has_next (index (k + i)) = true) ->
  pages_loop index todo k collected
  = Ok (collected ++ flat_map (fun i => page_links (index i)) (seq k todo))%list.
Proof.
  revert k collected; induction todo as [|todo IH]; intros k collected Hnext;
    cbn [pages_loop seq flat_map]; [now rewrite app_nil_r|].
  pose proof (Hnext 0 ltac:(lia)) as H0. rewrite Nat.add_0_r in H0. rewrite H0.
  rewrite IH.
  - rewrite links_loop_filter, <- app_assoc. reflexivity.
  - intros i Hi. replace (S k + i) with (k + S i) by lia. apply Hnext. lia.
Qed.

Lemma pages_loop_missing (index : nat -> index_page) (todo k i : nat)
  (collected : list string) :
  i < todo -> has_next (index (k + i)) = false ->
  pages_loop index todo k collected = Raise NoSuchElementException.
Proof.
  revert k i collected; induction todo as [|todo IH]; intros k i collected Hi Hno;
    [lia|].
  cbn [pages_loop]. destruct (has_next (index k)) eqn:Hk; [|reflexivity].
  destruct i as [|i]; [rewrite Nat.add_0_r in Hno; congruence|].
  apply (IH (S k) i); [lia|]. now replace (S k + i) with (k + S i) by lia.
Qed.

Lemma price_loop_lengths (prices : list string) (counter : Z) (d : Dict.t) :
  let d' := price_loop prices counter d in
  exists a f,
    List.length (Dict.Asking d') = List.length (Dict.Asking d) + a /\
    List.length (Dict.Final d') = List.length (Dict.Final d) + f /\
    a + f = List.length prices /\
    if (counter mod 2 =? 1)%Z then f <= a <= f + 1 else a <= f <= a + 1.
Proof.
  revert counter d; induction prices as [|p prices IH]; intros counter d;
    cbn [price_loop].
  - exists 0, 0. repeat split; try lia. destruct (counter mod 2 =? 1)%Z; lia.
  - destruct (counter mod 2 =? 1)%Z eqn:Hc.
    + assert (Hn : ((counter + 1) mod 2 =? 1)%Z = false).
      { apply Z.eqb_eq in Hc. apply Z.eqb_neq. clear IH.
        Z.div_mod_to_equations. lia. }
      destruct (IH (counter + 1)%Z (Dict.append_Asking d p))
        as [a [f [Ha [Hf [Hsum Hpar]]]]].
      rewrite Hn in Hpar. exists (S a), f. rewrite Ha, Hf.
      cbn [Dict.append_Asking Dict.Asking Dict.Final List.length].
      rewrite length_app. cbn [List.length]. repeat split; lia.
    + assert (Hn : ((counter + 1) mod 2 =? 1)%Z = true).
      { apply Z.eqb_neq in Hc. apply Z.eqb_eq. clear IH.
        Z.div_mod_to_equations. lia. }
      destruct (IH (counter + 1)%Z (Dict.append_Final d p))
        as [a [f [Ha [Hf [Hsum Hpar]]]]].
      rewrite Hn in Hpar. exists a, (S f). rewrite Ha, Hf.
      cbn [Dict.append_Final Dict.Asking Dict.Final List.length].
      rewrite length_app. cbn [List.length]. repeat split; lia.
Qed.

(** What one visited page does to the lengths of the five lists. *)
Lemma visit_Ok (pg : listing) (d d' : Dict.t) :
  visit pg d = Ok d' ->
  (shows_sales pg = false /\ d' = d) \/
  (shows_sales pg = true /\ heading_1 pg <> None /\
   List.length (Dict.Name d') = List.length (Dict.Name d) + sales_on pg /\
   List.length (Dict.Date d') = List.length (Dict.Date d) + sales_on pg /\
   List.length (Dict.Condition d')
   = List.length (Dict.Condition d) + (List.length (condition pg) - 1) /\
   exists a f,
     List.length (Dict.Asking d') = List.length (Dict.Asking d) + a /\
     List.length (Dict.Final d') = List.length (Dict.Final d) + f /\
     a + f = List.length (price_history_table_price pg) /\
     f <= a <= f + 1).
Proof.
  unfold visit, shows_sales, sales_on.
  destruct (date pg) as [|d0 dates] eqn:Hd.
  - intros H. injection H as <-. now left.
  - destruct (heading_1 pg) as [h|]; [|discriminate].
    intros H. injection H as <-. right. cbv zeta.
    split; [reflexivity|]. split; [discriminate|].
    match goal with
    | |- context [price_loop ?ps 1%Z
                    (fold_left Dict.append_Condition ?cs
                       (fold_left Dict.append_Date ?ds
                          (fold_left ?step ?l d)))] =>
        destruct (price_loop_parity ps 1
                    (fold_left Dict.append_Condition cs
                       (fold_left Dict.append_Date ds (fold_left step l d))))
          as [HpN [HpD [HpC _]]];
        destruct (price_loop_lengths ps 1
                    (fold_left Dict.append_Condition cs
                       (fold_left Dict.append_Date ds (fold_left step l d))))
          as [a [f [HpA [HpF [Hsum Hpar]]]]];
        destruct (condition_loop cs (fold_left Dict.append_Date ds (fold_left step l d)))
          as [HcN [HcD [HcC [HcA HcF]]]];
        destruct (date_loop ds (fold_left step l d))
          as [HdN [HdD [HdC [HdA HdF]]]];
        destruct (name_loop h l d) as [HnN [HnD [HnC [HnA HnF]]]]
    end.
    change (f <= a <= f + 1) in Hpar.
    rewrite length_seq in HnN.
    rewrite HpN, HcN, HdN, HnN, HpD, HcD, HdD, HnD, HpC, HcC, HdC, HnC.
    rewrite !length_app, repeat_length.
    cbn [List.length]. repeat split; try lia.
    + destruct (condition pg); cbn [tl List.length]; lia.
    + exists a, f. rewrite HpA, HpF, HcA, HdA, HnA, HcF, HdF, HnF.
      repeat split; lia.
Qed.

Lemma visit_result (pg : listing) (d : Dict.t) :
  (shows_sales pg = true -> heading_1 pg = None ->
   visit pg d = Raise NoSuchElementException) /\
  (shows_sales pg = false -> visit pg d = Ok d) /\
  (shows_sales pg = true -> heading_1 pg <> None -> exists d', visit pg d = Ok d').
Proof.
  unfold visit, shows_sales. destruct (date pg) as [|d0 dates].
  - split; [discriminate|]. split; [reflexivity | discriminate].
  - destruct (heading_1 pg) as [h|].
    + split; [discriminate|]. split; [discriminate|].
      intros _ _. eexists. reflexivity.
    + split; [reflexivity|]. split; [discriminate|].
      intros _ H. now contradiction H.
Qed.

Lemma forallb_seq_false (f : nat -> bool) (s n : nat) :
  forallb f (seq s n) = false -> exists k, s <= k < s + n /\ f k = false.
Proof.
  revert s; induction n as [|n IH]; intros s; cbn [seq forallb]; [discriminate|].
  destruct (f s) eqn:Hs; cbn [andb].
  - intros H. destruct (IH (S s) H) as [k [Hk Hno]]. exists k. split; [lia | exact Hno].
  - intros _. exists s. split; [lia | exact Hs].
Qed.

End CrawlFacts.

Section Crawl.
Import Str StrFacts Scrape ScrapeFacts Notions CrawlFacts FrameFacts.

(** X1. [get_site_links] scans exactly the index pages reached by 0 to
    212 clicks on [Next] and needs a [Next] link on each of them: when
    all 213 have one, the result is the kept links of these pages in
    page and document order, duplicates included; when one of them has
    none, the crawl ends with [NoSuchElementException] and returns no
    link at all. *)
Theorem get_site_links_result (index : nat -> index_page) :
  num_listings = 213 /\
  ((forall k, k < num_listings -> has_next (index k) = true) ->
   get_site_links index
   = Ok (flat_map (fun k => page_links (index k)) (seq 0 num_listings))) /\
  (forall k, k < num_listings -> has_next (index k) = false ->
             get_site_links index = Raise NoSuchElementException).
Proof.
  split; [reflexivity|]. unfold get_site_links. split.
  - intros Hnext. rewrite (pages_loop_all_next index num_listings 0 []);
      [reflexivity | exact Hnext].
  - intros k Hk Hno. now apply (pages_loop_missing index num_listings 0 k).
Qed.

Lemma get_site_links_result_witness :
  get_site_links Site.short_index = Raise NoSuchElementException.
Proof.
  apply (proj2 (proj2 (get_site_links_result Site.short_index)) 2).
  - vm_compute. lia.
  - reflexivity.
Defined.

(** X2. Every link that [get_site_links] returns is the [href] text of
    an anchor of one of the 213 scanned pages and contains "/guide"; an
    anchor of these pages whose [href] text contains "/guide" is
    returned. *)
Theorem get_site_links_members (index : nat -> index_page) (links : list string)
  (l : string) :
  get_site_links index = Ok links ->
  (In l links <->
   Occurs "/guide" l /\
   exists k h, k < num_listings /\ In h (anchors (index k)) /\ href_str h = l).
Proof.
  intros Hget.
  destruct (forallb (fun k => has_next (index k)) (seq 0 num_listings)) eqn:Hall.
  - rewrite forallb_forall in Hall.
    assert (Hnext : forall k, k < num_listings -> has_next (index k) = true).
    { intros k Hk. apply Hall. apply in_seq. lia. }
    unfold get_site_links in Hget.
    rewrite (pages_loop_all_next index num_listings 0 [] Hnext) in Hget.
    assert (E : links = flat_map (fun k => page_links (index k)) (seq 0 num_listings))
      by (cbn [app] in Hget; congruence).
    rewrite E, in_flat_map. unfold page_links. split.
    + intros [k [Hk Hin]]. apply in_seq in Hk.
      apply filter_In in Hin. destruct Hin as [Hin Hkeep].
      split; [now apply contains_spec|].
      apply in_map_iff in Hin. destruct Hin as [h [Eh Hh]].
      exists k, h. repeat split; [lia | assumption | assumption].
    + intros [Hg [k [h [Hk [Hh Eh]]]]]. exists k. split; [apply in_seq; lia|].
      apply filter_In. split.
      * apply in_map_iff. now exists h.
      * now apply contains_spec.
  - exfalso. apply forallb_seq_false in Hall. destruct Hall as [k [Hk Hno]].
    unfold get_site_links in Hget.
    rewrite (pages_loop_missing index num_listings 0 k [] ltac:(lia) Hno) in Hget.
    discriminate.
Qed.

Lemma get_site_links_members_witness :
  exists links,
    get_site_links Site.index = Ok links /\
    In "https://reverb.com/price-guide/guide/123-fender-stratocaster" links.
Proof.
  assert (H : exists links, get_site_links Site.index = Ok links).
  { eexists. vm_compute. reflexivity. }
  destruct H as [links H]. exists links. split; [exact H|].
  apply (proj2 (get_site_links_members Site.index links _ H)). split.
  - exists "https://reverb.com/price-guide", "/123-fender-stratocaster". reflexivity.
  - exists 0, (Some "https://reverb.com/price-guide/guide/123-fender-stratocaster").
    split; [vm_compute; lia|]. split; [now left | reflexivity].
Defined.

Lemma get_data_loop_skips (page : string -> listing) (links : list string)
  (d : Dict.t) :
  get_data_loop page links d
  = get_data_loop page (filter (fun l => shows_sales (page l)) links) d.
Proof.
  revert d; induction links as [|l links IH]; intros d; [reflexivity|].
  cbn [get_data_loop filter].
  destruct (shows_sales (page l)) eqn:Hs; cbn [get_data_loop].
  - destruct (visit (page l) d) as [d'|e]; cbn [bind]; [apply IH | reflexivity].
  - rewrite (proj1 (proj2 (visit_result (page l) d)) Hs). cbn [bind]. apply IH.
Qed.

(** X3. A link whose page shows no [date] element adds nothing:
    [get_data] returns what it returns on the links whose pages show a
    sale history, whatever else the skipped pages hold. *)
Theorem get_data_skips (page : string -> listing) (links : list string) :
  get_data page links
  = get_data page (filter (fun l => shows_sales (page l)) links).
Proof. apply get_data_loop_skips. Qed.

Lemma get_data_loop_raises (page : string -> listing) (links : list string)
  (d : Dict.t) (l : string) :
  In l links -> shows_sales (page l) = true -> heading_1 (page l) = None ->
  get_data_loop page links d = Raise NoSuchElementException.
Proof.
  revert d; induction links as [|x links IH]; intros d Hin Hs Hh; [destruct Hin|].
  cbn [get_data_loop].
  destruct (shows_sales (page x)) eqn:Hx.
  - destruct (heading_1 (page x)) as [h|] eqn:Hhx.
    + destruct (proj2 (proj2 (visit_result (page x) d)) Hx) as [d' Hd'];
        [congruence|].
      rewrite Hd'. cbn [bind]. destruct Hin as [-> | Hin]; [congruence|].
      now apply IH.
    + now rewrite (proj1 (visit_result (page x) d) Hx Hhx).
  - rewrite (proj1 (proj2 (visit_result (page x) d)) Hx). cbn [bind].
    destruct Hin as [-> | Hin]; [congruence|]. now apply IH.
Qed.

Lemma get_data_loop_returns (page : string -> listing) (links : list string)
  (d : Dict.t) :
  (forall l, In l links -> shows_sales (page l) = true -> heading_1 (page l) <> None) ->
  exists d', get_data_loop page links d = Ok d'.
Proof.
  revert d; induction links as [|x links IH]; intros d Hok;
    cbn [get_data_loop]; [now exists d|].
  assert (Hx : exists d1, visit (page x) d = Ok d1).
  { destruct (shows_sales (page x)) eqn:Hs.
    - apply (proj2 (proj2 (visit_result (page x) d)) Hs).
      apply Hok; [now left | exact Hs].
    - exists d. apply (proj1 (proj2 (visit_result (page x) d)) Hs). }
  destruct Hx as [d1 ->]. cbn [bind]. apply IH.
  intros l Hin. apply Hok. now right.
Qed.

(** X4. [get_data] returns a dictionary exactly when every link whose
    page shows a sale history also shows a heading; one page with a sale
    history and no heading ends the whole run with
    [NoSuchElementException], the records of the pages before it
    included. *)
Theorem get_data_result (page : string -> listing) (links : list string) :
  ((forall l, In l links -> shows_sales (page l) = true ->
              heading_1 (page l) <> None) ->
   exists d, get_data page links = Ok d) /\
  (forall l, In l links -> shows_sales (page l) = true ->
             heading_1 (page l) = None ->
             get_data page links = Raise NoSuchElementException).
Proof.
  split.
  - apply get_data_loop_returns.
  - intros l. apply get_data_loop_raises.
Qed.

Lemma get_data_result_witness :
  get_data Site.page ["strat"; "sold-out"; "untitled"] = Raise NoSuchElementException.
Proof.
  apply (proj2 (get_data_result Site.page ["strat"; "sold-out"; "untitled"]) "untitled").
  - right. right. now left.
  - reflexivity.
  - reflexivity.
Defined.

Lemma get_data_loop_lengths (page : string -> listing) (links : list string)
  (d0 d : Dict.t) :
  get_data_loop page links d0 = Ok d ->
  let total := list_sum (map (fun l => sales_on (page l)) links) in
  List.length (Dict.Name d) = List.length (Dict.Name d0) + total /\
  List.length (Dict.Date d) = List.length (Dict.Date d0) + total /\
  (exists a f,
      List.length (Dict.Asking d) = List.length (Dict.Asking d0) + a /\
      List.length (Dict.Final d) = List.length (Dict.Final d0) + f /\
      f <= a <= f + List.length links) /\
  ((forall l, In l links -> shows_sales (page l) = true -> consistent (page l)) ->
   List.length (Dict.Condition d) = List.length (Dict.Condition d0) + total /\
   List.length (Dict.Asking d) = List.length (Dict.Asking d0) + total /\
   List.length (Dict.Final d) = List.length (Dict.Final d0) + total).
Proof.
  revert d0; induction links as [|x links IH]; intros d0 H; cbn [get_data_loop] in H.
  - injection H as <-. cbn [map List.length].
    change (list_sum []) with 0.
    split; [lia|]. split; [lia|]. split; [exists 0, 0; lia|]. intros _. lia.
  - apply bind_Ok in H. destruct H as [d1 [Hv H]].
    destruct (IH d1 H) as [HN [HD [[a [f [HA [HF Haf]]]] Hcons]]].
    cbn [map List.length]. cbv zeta in *.
    change (list_sum (sales_on (page x) :: map (fun l => sales_on (page l)) links))
      with (sales_on (page x) + list_sum (map (fun l => sales_on (page l)) links)).
    apply visit_Ok in Hv.
    destruct Hv as [[Hs ->] | [Hs [_ [HN1 [HD1 [HC1 [a1 [f1 [HA1 [HF1 [Hsum H1]]]]]]]]]]].
    + assert (Hz : sales_on (page x) = 0).
      { unfold sales_on, shows_sales in *.
        destruct (date (page x)); [reflexivity | discriminate]. }
      rewrite Hz.
      split; [lia|]. split; [lia|]. split; [exists a, f; lia|].
      intros Hall. destruct Hcons as [HC [HA' HF']];
        [intros l Hin; apply Hall; now right | lia].
    + split; [lia|]. split; [lia|]. split; [exists (a1 + a), (f1 + f); lia|].
      intros Hall. destruct Hcons as [HC [HA' HF']];
        [intros l Hin; apply Hall; now right |].
      destruct (Hall x (or_introl eq_refl) Hs) as [Hc Hp].
      unfold sales_on in *. lia.
Qed.

(** X5. Whatever the pages hold, the dictionary [get_data] returns has
    as many [Name] entries as [Date] entries, one per sale listed below
    the header entries of the visited pages, and never fewer [Asking]
    than [Final] entries, the surplus being at most one per link. *)
Theorem get_data_columns (page : string -> listing) (links : list string)
  (d : Dict.t) :
  get_data page links = Ok d ->
  List.length (Dict.Name d) = list_sum (map (fun l => sales_on (page l)) links) /\
  List.length (Dict.Date d) = List.length (Dict.Name d) /\
  List.length (Dict.Final d) <= List.length (Dict.Asking d) /\
  List.length (Dict.Asking d) <= List.length (Dict.Final d) + List.length links.
Proof.
  intros H. apply get_data_loop_lengths in H. cbv zeta in H.
  cbn [Dict.empty Dict.Name Dict.Date Dict.Asking Dict.Final List.length] in H.
  destruct H as [HN [HD [[a [f [HA [HF Haf]]]] _]]]. lia.
Qed.

Lemma get_data_columns_witness :
  exists d,
    get_data Site.page ["strat"; "sold-out"] = Ok d /\
    List.length (Dict.Name d) = 2 /\ List.length (Dict.Date d) = 2.
Proof.
  assert (H : exists d, get_data Site.page ["strat"; "sold-out"] = Ok d).
  { eexists. vm_compute. reflexivity. }
  destruct H as [d H]. exists d. split; [exact H|].
  destruct (get_data_columns Site.page ["strat"; "sold-out"] d H) as [HN [HD _]].
  split; [exact HN | now rewrite HD, HN].
Defined.

Lemma from_dict_rows_Ok (i n : nat) (ns ds cs aa fs : list string) :
  List.length ns = n -> List.length ds = n -> List.length cs = n ->
  List.length aa = n -> List.length fs = n ->
  exists rows, Pandas.from_dict_rows i ns ds cs aa fs = Ok rows /\ List.length rows = n.
Proof.
  revert i ns ds cs aa fs; induction n as [|n IH]; intros i ns ds cs aa fs Hn Hd Hc Ha Hf;
    destruct ns, ds, cs, aa, fs; try discriminate.
  - exists []. now split.
  - injection Hn as Hn. injection Hd as Hd. injection Hc as Hc.
    injection Ha as Ha. injection Hf as Hf.
    destruct (IH (S i) ns ds cs aa fs Hn Hd Hc Ha Hf) as [rows [Hrows Hlen]].
    eexists. cbn [Pandas.from_dict_rows]. rewrite Hrows. cbn [bind].
    split; [reflexivity|]. cbn [List.length]. now rewrite Hlen.
Qed.

(** X6. When every visited page that shows a sale history is consistent
    (as many condition entries as date entries, two prices per sale), the
    dictionary [get_data] returns has five lists of one and the same
    length, the number of sales listed, and [DataFrame.from_dict] builds
    that many rows from it. *)
Theorem get_data_rectangular (page : string -> listing) (links : list string)
  (d : Dict.t) :
  (forall l, In l links -> shows_sales (page l) = true -> consistent (page l)) ->
  get_data page links = Ok d ->
  let total := list_sum (map (fun l => sales_on (page l)) links) in
  rectangular d total /\
  exists rows, Pandas.from_dict d = Ok rows /\ List.length rows = total.
Proof.
  intros Hcons H. apply get_data_loop_lengths in H. cbv zeta in *.
  cbn [Dict.empty Dict.Name Dict.Date Dict.Condition Dict.Asking Dict.Final
       List.length] in H.
  destruct H as [HN [HD [_ Hc]]]. destruct (Hc Hcons) as [HC [HA HF]].
  assert (Hrect : rectangular d (list_sum (map (fun l => sales_on (page l)) links))).
  { unfold rectangular. repeat split; assumption. }
  split; [exact Hrect|].
  destruct Hrect as [H1 [H2 [H3 [H4 H5]]]].
  exact (from_dict_rows_Ok 0 _ _ _ _ _ _ H1 H2 H3 H4 H5).
Qed.

Lemma get_data_rectangular_witness :
  exists d rows,
    get_data Site.page ["strat"; "sold-out"; "strat"] = Ok d /\
    Pandas.from_dict d = Ok rows /\ List.length rows = 4.
Proof.
  assert (H : exists d, get_data Site.page ["strat"; "sold-out"; "strat"] = Ok d).
  { eexists. vm_compute. reflexivity. }
  destruct H as [d H].
  destruct (get_data_rectangular Site.page ["strat"; "sold-out"; "strat"] d)
    as [_ [rows [Hrows Hlen]]].
  - intros l [<- | [<- | [<- | []]]] Hs; try discriminate Hs; split; reflexivity.
  - exact H.
  - exists d, rows. split; [exact H|]. split; [exact Hrows | exact Hlen].
Defined.

End Crawl.

(* ------------------------------------------------------------------ *)
(** ** Brands and the frame of [to_df] *)

Module TokenFacts.
Import Str Notions.

Lemma lstrip_split (s : string) :
  exists pre, s = pre ++ lstrip s /\ blank pre.
Proof.
  induction s as [|c s IH]; cbn [lstrip].
  - exists "". now split.
  - destruct (is_space c) eqn:Hc.
    + destruct IH as [pre [E Hpre]]. exists (String c pre). cbn.
      split; [now rewrite <- E | now split].
    + exists "". now split.
Qed.

Lemma lstrip_blank (s : string) : lstrip s = "" <-> blank s.
Proof.
  induction s as [|c s IH]; cbn [lstrip blank]; [tauto|].
  destruct (is_space c); [rewrite IH; tauto|].
  split; [discriminate | intros [H _]; discriminate H].
Qed.

Lemma lstrip_head (s : string) (c : ascii) (t : string) :
  lstrip s = String c t -> is_space c = false.
Proof.
  induction s as [|x s IH]; cbn [lstrip]; [discriminate|].
  destruct (is_space x) eqn:Hx; [exact IH|].
  intros H. injection H as <- _. exact Hx.
Qed.

Lemma take_token_split (t : string) :
  exists rest,
    t = take_token t ++ rest /\ spaceless (take_token t) /\
    (rest = "" \/ exists c r, rest = String c r /\ is_space c = true).
Proof.
  induction t as [|c t IH]; cbn [take_token].
  - exists "". repeat split. now left.
  - destruct (is_space c) eqn:Hc.
    + exists (String c t). repeat split. right. now exists c, t.
    + destruct IH as [rest [E [Hs Hrest]]]. exists rest. cbn.
      split; [now rewrite <- E|]. split; [now split | exact Hrest].
Qed.

Lemma first_token_Ok (name b : string) :
  first_token name = Ok b -> first_token_of name b.
Proof.
  unfold first_token, first_token_of. intros H.
  destruct (lstrip_split name) as [pre [E Hpre]].
  destruct (lstrip name) as [|c t] eqn:Hl; [discriminate|].
  assert (Eb : take_token (String c t) = b) by (now injection H).
  destruct (take_token_split (String c t)) as [rest [Et [Hs Hrest]]].
  rewrite Eb in Et, Hs.
  exists pre, rest. split; [now rewrite <- Et|]. split; [exact Hpre|].
  split; [|split; assumption].
  rewrite <- Eb. cbn [take_token]. rewrite (lstrip_head name c t Hl). discriminate.
Qed.

End TokenFacts.

Section Tokens.
Import Str Notions TokenFacts.

(** X7. The brand taken from a title, [name.split()[0]]: a title made of
    whitespace only (the empty title included) raises [IndexError]; any
    other title yields a non-empty token without whitespace, preceded in
    the title by whitespace only and followed by the end of the title or
    by a whitespace character. *)
Theorem first_token_spec (name : string) :
  (blank name -> first_token name = Raise IndexError) /\
  (~ blank name ->
   exists b pre rest,
     first_token name = Ok b /\ name = pre ++ b ++ rest /\
     blank pre /\ b <> "" /\ spaceless b /\
     (rest = "" \/ exists c r, rest = String c r /\ is_space c = true)).
Proof.
  unfold first_token. split.
  - intros Hb. apply lstrip_blank in Hb. now rewrite Hb.
  - intros Hnb. destruct (lstrip_split name) as [pre [E Hpre]].
    destruct (lstrip name) as [|c t] eqn:Hl.
    + exfalso. apply Hnb. now apply lstrip_blank.
    + destruct (take_token_split (String c t)) as [rest [Et [Hs Hrest]]].
      exists (take_token (String c t)), pre, rest.
      split; [reflexivity|]. split; [now rewrite <- Et|].
      split; [exact Hpre|]. split; [|split; assumption].
      cbn [take_token]. rewrite (lstrip_head name c t Hl). discriminate.
Qed.

Lemma first_token_spec_witness :
  exists b pre rest,
    first_token "  Fender Stratocaster" = Ok b /\
    "  Fender Stratocaster" = pre ++ b ++ rest /\ b <> "".
Proof.
  destruct (proj2 (first_token_spec "  Fender Stratocaster"))
    as [b [pre [rest [Hb [E [_ [Hne _]]]]]]].
  - intros H. cbv in H. destruct H as [_ [_ [H _]]]. discriminate H.
  - exists b, pre, rest. split; [exact Hb|]. split; [exact E | exact Hne].
Defined.

End Tokens.

Module ToDfFacts.
Import Str Notions TokenFacts FrameFacts Spec.

Lemma from_dict_rows_lengths (i : nat) (ns ds cs aa fs : list string)
  (rows : list Raw.row) :
  Pandas.from_dict_rows i ns ds cs aa fs = Ok rows ->
  List.length ns = List.length rows /\ List.length ds = List.length rows /\
  List.length cs = List.length rows /\ List.length aa = List.length rows /\
  List.length fs = List.length rows.
Proof.
  revert i ds cs aa fs rows.
  induction ns as [|n ns IH]; intros i ds cs aa fs rows H;
    destruct ds, cs, aa, fs; cbn [Pandas.from_dict_rows] in H; try discriminate.
  - injection H as <-. repeat split.
  - apply bind_Ok in H. destruct H as [rest [Hrest H]]. injection H as <-.
    apply IH in Hrest. cbn [List.length]. intuition congruence.
Qed.

Lemma from_dict_rows_raises (i : nat) (ns ds cs aa fs : list string) (e : exn) :
  Pandas.from_dict_rows i ns ds cs aa fs = Raise e -> e = ValueError.
Proof.
  revert i ds cs aa fs.
  induction ns as [|n ns IH]; intros i ds cs aa fs H;
    destruct ds, cs, aa, fs; cbn [Pandas.from_dict_rows] in H;
    try discriminate; try congruence.
  destruct (Pandas.from_dict_rows (S i) ns ds cs aa fs) eqn:Hrest;
    cbn [bind] in H; [discriminate|].
  injection H as <-. now apply IH in Hrest.
Qed.

Lemma from_dict_rows_fields (i : nat) (ns ds cs aa fs : list string)
  (rows : list Raw.row) (r : Raw.row) :
  Pandas.from_dict_rows i ns ds cs aa fs = Ok rows -> In r rows ->
  i <= Raw.index r /\
  nth_error fs (Raw.index r - i) = Some (Raw.Final r) /\
  nth_error aa (Raw.index r - i) = Some (Raw.Asking r) /\
  nth_error ns (Raw.index r - i) = Some (Raw.Name r) /\
  nth_error ds (Raw.index r - i) = Some (Raw.Date r) /\
  nth_error cs (Raw.index r - i) = Some (Raw.Condition r).
Proof.
  revert i ds cs aa fs rows.
  induction ns as [|n ns IH]; intros i ds cs aa fs rows H Hin;
    destruct ds, cs, aa, fs; cbn [Pandas.from_dict_rows] in H; try discriminate.
  - injection H as <-. destruct Hin.
  - apply bind_Ok in H. destruct H as [rest [Hrest H]]. injection H as <-.
    destruct Hin as [<- | Hin].
    + cbn [Raw.index Raw.Final Raw.Asking Raw.Name Raw.Date Raw.Condition].
      rewrite Nat.sub_diag. repeat split. lia.
    + destruct (IH (S i) _ _ _ _ _ Hrest Hin) as [Hi [Hf [Ha [Hn [Hd Hc]]]]].
      replace (Raw.index r - i) with (S (Raw.index r - S i)) by lia.
      cbn [nth_error]. repeat split; try assumption. lia.
Qed.

Lemma from_dict_rows_names (i : nat) (ns ds cs aa fs : list string)
  (rows : list Raw.row) :
  Pandas.from_dict_rows i ns ds cs aa fs = Ok rows -> map Raw.Name rows = ns.
Proof.
  revert i ds cs aa fs rows.
  induction ns as [|n ns IH]; intros i ds cs aa fs rows H;
    destruct ds, cs, aa, fs; cbn [Pandas.from_dict_rows] in H; try discriminate.
  - now injection H as <-.
  - apply bind_Ok in H. destruct H as [rest [Hrest H]]. injection H as <-.
    cbn [map Raw.Name]. f_equal. now apply IH in Hrest.
Qed.

Lemma mapM_returns {A B : Type} (f : A -> result B) (l : list A) :
  (forall a, In a l -> exists b, f a = Ok b) -> exists l', mapM f l = Ok l'.
Proof.
  induction l as [|a l IH]; intros Hall; cbn [mapM]; [now exists []|].
  destruct (Hall a (or_introl eq_refl)) as [b ->].
  destruct IH as [l' ->]; [intros x Hx; apply Hall; now right|].
  cbn [bind]. now eexists.
Qed.

Lemma Forall2_In_r {A B : Type} (R : A -> B -> Prop) (l : list A) (l' : list B)
  (b : B) :
  Forall2 R l l' -> In b l' -> exists a, In a l /\ R a b.
Proof.
  intros H. induction H as [|x y l l' Hxy _ IH]; intros Hin; [destruct Hin|].
  destruct Hin as [<- | Hin].
  - exists x. split; [now left | exact Hxy].
  - destruct (IH Hin) as [a [Ha HR]]. exists a. split; [now right | exact HR].
Qed.

Lemma add_brand_Ok (r r' : Raw.row) :
  add_brand r = Ok r' ->
  Raw.index r' = Raw.index r /\ Raw.Final r' = Raw.Final r /\
  Raw.Asking r' = Raw.Asking r /\ Raw.Name r' = Raw.Name r /\
  Raw.Date r' = Raw.Date r /\ Raw.Condition r' = Raw.Condition r /\
  first_token (Raw.Name r') = Ok (Raw.Brand r').
Proof.
  unfold add_brand. intros H. apply bind_Ok in H. destruct H as [b [Hb H]].
  injection H as <-. cbn. repeat split. exact Hb.
Qed.

Lemma add_brand_raises (r : Raw.row) :
  (blank (Raw.Name r) -> add_brand r = Raise IndexError) /\
  (~ blank (Raw.Name r) -> exists r', add_brand r = Ok r') /\
  (forall e, add_brand r = Raise e -> e = IndexError).
Proof.
  unfold add_brand, first_token.
  destruct (lstrip (Raw.Name r)) as [|c t] eqn:Hl; cbn [bind].
  - split; [reflexivity|]. split; [|congruence].
    intros Hnb. exfalso. apply Hnb. now apply lstrip_blank.
  - split; [|split; [intros _; now eexists | discriminate]].
    intros Hb. apply lstrip_blank in Hb. congruence.
Qed.

Lemma sorted_map_filter {A : Type} (g : A -> nat) (f : A -> bool) (l : list A) :
  StronglySorted lt (map g l) -> StronglySorted lt (map g (filter f l)).
Proof.
  induction l as [|x l IH]; cbn [map filter]; intros H; [constructor|].
  inversion H as [|? ? Hl Hx]; subst.
  destruct (f x); cbn [map]; [|now apply IH].
  constructor; [now apply IH|].
  rewrite Forall_forall in *. intros y Hy. apply Hx.
  apply in_map_iff in Hy. destruct Hy as [z [<- Hz]].
  apply filter_In in Hz. apply in_map. tauto.
Qed.

Lemma sorted_seq (s n : nat) : StronglySorted lt (seq s n).
Proof.
  revert s; induction n as [|n IH]; intros s; cbn [seq]; constructor; [apply IH|].
  apply Forall_forall. intros y Hy. apply in_seq in Hy. lia.
Qed.

End ToDfFacts.

Section ToDf.
Import Str Notions TokenFacts FrameFacts Spec ToDfFacts CountFacts.

(** X8. How [to_df] ends, whatever order [value_counts] gives: with
    [ValueError] when the five lists of the dictionary do not all have
    the same length; with [IndexError] when they do and one title is
    made of whitespace only; with a frame otherwise. *)
Theorem to_df_result (vc : list string -> list string) (d : Dict.t) :
  ((forall n, ~ rectangular d n) -> to_df vc d = Raise ValueError) /\
  (forall n name,
      rectangular d n -> In name (Dict.Name d) -> blank name ->
      to_df vc d = Raise IndexError) /\
  (forall n,
      rectangular d n -> (forall name, In name (Dict.Name d) -> ~ blank name) ->
      exists df, to_df vc d = Ok df).
Proof.
  unfold to_df, Pandas.from_dict. split; [|split].
  - intros Hnot.
    destruct (Pandas.from_dict_rows 0 (Dict.Name d) (Dict.Date d) (Dict.Condition d)
                (Dict.Asking d) (Dict.Final d)) as [rows|e] eqn:H; cbn [bind].
    + exfalso. apply from_dict_rows_lengths in H.
      apply (Hnot (List.length rows)). unfold rectangular. tauto.
    + now rewrite (from_dict_rows_raises _ _ _ _ _ _ _ H).
  - intros n name [H1 [H2 [H3 [H4 H5]]]] Hin Hb.
    destruct (from_dict_rows_Ok 0 n _ _ _ _ _ H1 H2 H3 H4 H5) as [rows [Hrows _]].
    rewrite Hrows. cbn [bind].
    rewrite (mapM_raise add_brand rows IndexError); [reflexivity | |].
    + intros r e. apply add_brand_raises.
    + rewrite <- (from_dict_rows_names _ _ _ _ _ _ _ Hrows) in Hin.
      apply in_map_iff in Hin. destruct Hin as [r [<- Hr]].
      exists r. split; [exact Hr|]. now apply add_brand_raises.
  - intros n [H1 [H2 [H3 [H4 H5]]]] Hall.
    destruct (from_dict_rows_Ok 0 n _ _ _ _ _ H1 H2 H3 H4 H5) as [rows [Hrows _]].
    rewrite Hrows. cbn [bind].
    destruct (mapM_returns add_brand rows) as [df ->].
    + intros r Hr. apply add_brand_raises. apply Hall.
      rewrite <- (from_dict_rows_names _ _ _ _ _ _ _ Hrows). now apply in_map.
    + cbn [bind]. now eexists.
Qed.

Lemma to_df_result_witness :
  to_df Pandas.value_counts_stable
    (Dict.mk ["Fender Stratocaster"; "   "] ["1/2/2018"; "1/5/2018"] ["Good"; "Mint"]
       ["$500"; "$90"] ["$450"; "$80"])
  = Raise IndexError.
Proof.
  apply (proj1 (proj2 (to_df_result Pandas.value_counts_stable _)) 2 "   ").
  - repeat split.
  - right. now left.
  - cbv. tauto.
Defined.

(** X9. Every row of the frame [to_df] returns holds the five scraped
    entries found at its index label, and the first token of its title as
    [Brand]; the rows stay in scraped order and keep their original
    labels, which are not renumbered after the brand filter. *)
Theorem to_df_rows (vc : list string -> list string) (d : Dict.t)
  (df : list Raw.row) :
  to_df vc d = Ok df ->
  (forall r, In r df ->
             scraped_at d r /\ first_token (Raw.Name r) = Ok (Raw.Brand r)) /\
  StronglySorted lt (map Raw.index df).
Proof.
  intros Hdf. destruct (to_df_mask vc d df Hdf) as [rows [Hrows ->]].
  unfold branded_rows in Hrows. apply bind_Ok in Hrows.
  destruct Hrows as [rows0 [H0 Hb]]. split.
  - intros r Hr. apply filter_In in Hr. destruct Hr as [Hr _].
    destruct (Forall2_In_r _ _ _ r (mapM_Ok _ _ _ Hb) Hr) as [r0 [Hr0 Hadd]].
    apply add_brand_Ok in Hadd.
    destruct Hadd as [Ei [Ef [Ea [En [Ed [Ec Ht]]]]]].
    split; [|exact Ht].
    destruct (from_dict_rows_fields 0 _ _ _ _ _ rows0 r0 H0 Hr0)
      as [_ [Hf [Ha [Hn [Hd Hc]]]]].
    rewrite Nat.sub_0_r in *. unfold scraped_at.
    rewrite Ei, Ef, Ea, En, Ed, Ec. tauto.
  - apply sorted_map_filter.
    rewrite (add_brand_index _ _ Hb), (from_dict_rows_index _ _ _ _ _ _ _ H0).
    apply sorted_seq.
Qed.

Lemma to_df_rows_witness :
  exists df,
    to_df Pandas.value_counts_stable Sample.sales = Ok df /\
    StronglySorted lt (map Raw.index df).
Proof.
  assert (H : exists df, to_df Pandas.value_counts_stable Sample.sales = Ok df).
  { eexists. vm_compute. reflexivity. }
  destruct H as [df H]. exists df. split; [exact H|].
  exact (proj2 (to_df_rows Pandas.value_counts_stable Sample.sales df H)).
Defined.

(** X10. With a frequency order as [value_counts] promises, a scrape
    with at most 20 distinct brands passes [to_df] whole: no row is
    dropped. *)
Theorem to_df_keeps_all (vc : list string -> list string) (d : Dict.t)
  (df rows : list Raw.row) :
  Pandas.value_counts_spec vc ->
  to_df vc d = Ok df ->
  branded_rows d = Ok rows ->
  (forall brands, NoDup brands -> incl brands (map Raw.Brand rows) ->
                  List.length brands <= 20) ->
  df = rows.
Proof.
  intros Hvc Hdf Hrows Hfew.
  destruct (to_df_mask vc d df Hdf) as [rows' [Hrows' ->]].
  assert (rows' = rows) by congruence. subst rows'.
  destruct (Hvc (map Raw.Brand rows)) as [Hnd [Hin _]].
  assert (Hlen : List.length (vc (map Raw.Brand rows)) <= 20).
  { apply Hfew; [exact Hnd|]. intros b Hb. now apply Hin. }
  rewrite (firstn_all2 _ Hlen).
  apply forallb_filter_id. apply forallb_forall. intros r Hr.
  apply in_list_In. apply Hin. now apply in_map.
Qed.

Lemma to_df_keeps_all_witness :
  exists df,
    to_df Pandas.value_counts_stable Sample.sales = Ok df /\
    branded_rows Sample.sales = Ok df.
Proof.
  assert (H : exists df, to_df Pandas.value_counts_stable Sample.sales = Ok df).
  { eexists. vm_compute. reflexivity. }
  assert (H' : exists rows,
             branded_rows Sample.sales = Ok rows /\
             map Raw.Brand rows
             = ["Fender"; "Gibson"; "Fender"; "Gibson"; "Epiphone"; "Ibanez"]).
  { eexists. split; vm_compute; reflexivity. }
  destruct H as [df H]. destruct H' as [rows [H' Hb]].
  exists df. split; [exact H|].
  rewrite (to_df_keeps_all Pandas.value_counts_stable Sample.sales df rows
             value_counts_stable_spec H H'); [exact H'|].
  intros brands Hnd Hincl. rewrite Hb in Hincl.
  apply (NoDup_incl_length Hnd) in Hincl. cbn [List.length] in Hincl. lia.
Defined.

End ToDf.

(* ------------------------------------------------------------------ *)
(** ** The frames of [main] *)

Module MainFacts.
Import Str StrFacts Notions FrameFacts Spec ToDfFacts.

Lemma mapM_raises_only {A B : Type} (f : A -> result B) (l : list A) (e0 e : exn) :
  (forall a e', f a = Raise e' -> e' = e0) -> mapM f l = Raise e -> e = e0.
Proof.
  intros Honly. induction l as [|a l IH]; cbn [mapM]; [discriminate|].
  destruct (f a) as [b|e'] eqn:Ha; cbn [bind].
  - destruct (mapM f l) as [bs|e'']; cbn [bind]; [discriminate|].
    intros H. injection H as <-. now apply IH.
  - intros H. injection H as <-. now apply (Honly a).
Qed.

Lemma mapM_each {A B : Type} (f : A -> result B) (l : list A) (l' : list B) (a : A) :
  mapM f l = Ok l' -> In a l -> exists b, f a = Ok b.
Proof.
  intros H. apply mapM_Ok in H.
  induction H as [|x y l l' Hxy _ IH]; intros Hin; [destruct Hin|].
  destruct Hin as [<- | Hin]; [now exists y | now apply IH].
Qed.

Lemma price_to_float_raises (s : string) (e : exn) :
  price_to_float s = Raise e -> e = ValueError.
Proof.
  unfold price_to_float.
  destruct (Num.float_of_string _); [discriminate | congruence].
Qed.

Lemma clean_asking_price_raises (s : string) (e : exn) :
  clean_asking_price s = Raise e -> e = ValueError.
Proof.
  unfold clean_asking_price. destruct (String.eqb s "FREE"); [discriminate|].
  apply price_to_float_raises.
Qed.

Lemma assemble_derived (df : list Raw.row) (ys : list (option Z))
  (fs aa : list Num.float) :
  Forall2 (fun y0 y => clean_model_year y0 = Ok y)
    (map (fun r => get_model_year (Raw.Name r)) df) ys ->
  Forall2 (fun r f => price_to_float (Raw.Final r) = Ok f) df fs ->
  Forall2 (fun r a => clean_asking_price (Raw.Asking r) = Ok a) df aa ->
  Forall2 derived_from df
    (assemble df ys (map (fun r => get_model_color (Raw.Name r)) df) fs aa).
Proof.
  revert ys fs aa; induction df as [|r df IH]; intros ys fs aa Hy Hf Ha;
    cbn [map] in *; inversion Hy; inversion Hf; inversion Ha; subst;
    cbn [assemble]; constructor.
  - unfold derived_from. cbn. repeat split; assumption.
  - now apply IH.
Qed.

Lemma main_derived (vc : list string -> list string) (d : Dict.t)
  (full : list Clean.row) (feat : Feature.table) :
  main vc d = Ok (full, feat) ->
  exists df, to_df vc d = Ok df /\ Forall2 derived_from df full /\
             feat = df_format full.
Proof.
  unfold main. intros H.
  apply bind_Ok in H. destruct H as [df [Hdf H]].
  apply bind_Ok in H. destruct H as [ys [Hys H]].
  apply bind_Ok in H. destruct H as [fs [Hfs H]].
  apply bind_Ok in H. destruct H as [aa [Haa H]].
  injection H as <- <-. exists df. split; [exact Hdf|]. split; [|reflexivity].
  apply assemble_derived; now apply mapM_Ok.
Qed.

Lemma Forall2_In_l {A B : Type} (R : A -> B -> Prop) (l : list A) (l' : list B)
  (a : A) :
  Forall2 R l l' -> In a l -> exists b, In b l' /\ R a b.
Proof.
  intros H. induction H as [|x y l l' Hxy _ IH]; intros Hin; [destruct Hin|].
  destruct Hin as [<- | Hin].
  - exists y. split; [now left | exact Hxy].
  - destruct (IH Hin) as [b [Hb HR]]. exists b. split; [now right | exact HR].
Qed.

Lemma pattern_year_range (k : nat) (raw : string) (y : Z) :
  year_pattern k raw ->
  clean_model_year (Some raw) = Ok (Some y) -> (1930 <= y <= 2019)%Z.
Proof.
  intros Hp.
  destruct Hp;
    unfold digit, digit_3_to_9, zero_or_one in *; cbn [In] in *;
    repeat match goal with
           | H : _ \/ _ |- _ => destruct H as [H | H]
           | H : False |- _ => destruct H
           | H : _ = ?c |- _ => is_var c; subst c
           | H : ?c = _ |- _ => is_var c; subst c
           end;
    intros H; vm_compute in H;
    first [ discriminate H | injection H as <-; lia ].
Qed.

Ltac not_a_digit H :=
  cbv [digit In] in H;
  repeat (destruct H as [H | H]; [discriminate H|]); exact H.

Ltac not_digits Hd :=
  cbv [all_digits] in Hd;
  repeat match type of Hd with
         | _ /\ _ =>
             let H := fresh "H" in
             destruct Hd as [H Hd]; try (solve [not_a_digit H])
         end.

Lemma pattern_exact_year (k : nat) (raw : string) :
  year_pattern k raw -> all_digits raw ->
  clean_model_year (Some raw) = Ok (Some (decimal raw)).
Proof.
  intros Hp.
  destruct Hp;
    unfold digit, digit_3_to_9, zero_or_one in *; cbn [In] in *;
    repeat match goal with
           | H : _ \/ _ |- _ => destruct H as [H | H]
           | H : False |- _ => destruct H
           | H : _ = ?c |- _ => is_var c; subst c
           | H : ?c = _ |- _ => is_var c; subst c
           end;
    intros Hd;
    first [ vm_compute; reflexivity | exfalso; not_digits Hd ].
Qed.

End MainFacts.

Section Frames.
Import Str StrFacts Notions FrameFacts Spec ToDfFacts MainFacts.

(** X11. A year that the title parser produces lies between 1930 and
    2019: whenever the normalisation of an extracted text returns an
    integer, that integer is in this range; an extracted text made of
    digits only is returned as the number it denotes. *)
Theorem model_year_range :
  (forall title raw y,
      get_model_year title = Some raw ->
      clean_model_year (Some raw) = Ok (Some y) ->
      (1930 <= y <= 2019)%Z) /\
  (forall title raw,
      get_model_year title = Some raw -> all_digits raw ->
      clean_model_year (Some raw) = Ok (Some (decimal raw))).
Proof.
  split.
  - intros title raw y Hget Hy.
    destruct (get_model_year_shape title raw Hget) as [k Hk].
    exact (pattern_year_range k raw y Hk Hy).
  - intros title raw Hget Hd.
    destruct (get_model_year_shape title raw Hget) as [k Hk].
    exact (pattern_exact_year k raw Hk Hd).
Qed.

Lemma model_year_range_witness : (1930 <= 1975 <= 2019)%Z.
Proof.
  apply (proj1 model_year_range "Gibson SG 1970s" "1970s" 1975%Z); reflexivity.
Defined.

(** X12. The full cleaned table of [main] has one row for each row of
    [to_df], in the same order, and each is derived from its row alone:
    same label, title, date, condition and brand; the year, the colour
    and the two prices are those the title parser and the price
    normaliser give for that row.  The year of every row, when present,
    lies between 1930 and 2019. *)
Theorem main_rows (vc : list string -> list string) (d : Dict.t)
  (full : list Clean.row) (feat : Feature.table) :
  main vc d = Ok (full, feat) ->
  exists df,
    to_df vc d = Ok df /\ Forall2 derived_from df full /\
    forall c y, In c full -> Clean.Model_Year c = Some y -> (1930 <= y <= 2019)%Z.
Proof.
  intros H. destruct (main_derived vc d full feat H) as [df [Hdf [Hder _]]].
  exists df. split; [exact Hdf|]. split; [exact Hder|].
  intros c y Hc Hy.
  destruct (Forall2_In_r _ _ _ c Hder Hc) as [r [_ Hr]].
  destruct Hr as [_ [_ [_ [_ [_ [Hyear _]]]]]].
  rewrite Hy in Hyear.
  destruct (get_model_year (Raw.Name r)) as [raw|] eqn:Hget; [|discriminate].
  destruct (get_model_year_shape _ raw Hget) as [k Hk].
  exact (pattern_year_range k raw y Hk Hyear).
Qed.

Lemma main_rows_witness :
  exists df,
    to_df Pandas.value_counts_stable Sample.sales = Ok df /\
    Forall2 derived_from df Sample.cleaned.
Proof.
  destruct (main_rows Pandas.value_counts_stable Sample.sales Sample.cleaned
              Sample.features) as [df [Hdf [Hder _]]].
  - vm_compute. reflexivity.
  - exists df. split; [exact Hdf | exact Hder].
Defined.

(** X13. Once [to_df] has returned a frame with at least one row,
    [main] finishes when the year normalisation, the final price and the
    asking price of every row parse; one row for which one of them fails
    ends [main] with [ValueError].  The final price has no "FREE" case: a
    row whose final price reads "FREE" is such a row. *)
Theorem main_result (vc : list string -> list string) (d : Dict.t)
  (df : list Raw.row) :
  to_df vc d = Ok df ->
  (df <> [] ->
   (forall r, In r df ->
      (exists y, clean_model_year (get_model_year (Raw.Name r)) = Ok y) /\
      (exists f, price_to_float (Raw.Final r) = Ok f) /\
      (exists a, clean_asking_price (Raw.Asking r) = Ok a)) ->
   exists full feat, main vc d = Ok (full, feat)) /\
  (forall r e, In r df ->
      clean_model_year (get_model_year (Raw.Name r)) = Raise e \/
      price_to_float (Raw.Final r) = Raise e \/
      clean_asking_price (Raw.Asking r) = Raise e ->
      main vc d = Raise ValueError) /\
  (forall r, In r df -> Raw.Final r = "FREE" -> main vc d = Raise ValueError).
Proof.
  intros Hdf.
  assert (Hfail : forall r e, In r df ->
            clean_model_year (get_model_year (Raw.Name r)) = Raise e \/
            price_to_float (Raw.Final r) = Raise e \/
            clean_asking_price (Raw.Asking r) = Raise e ->
            main vc d = Raise ValueError).
  { intros r e Hr Hbad. unfold main. rewrite Hdf. cbn [bind].
    destruct (mapM clean_model_year (map (fun r => get_model_year (Raw.Name r)) df))
      as [ys|e1] eqn:Hys; cbn [bind].
    2:{ now rewrite (mapM_raises_only _ _ ValueError e1 clean_model_year_raises Hys). }
    destruct (mapM (fun r => price_to_float (Raw.Final r)) df) as [fs|e2] eqn:Hfs;
      cbn [bind].
    2:{ rewrite (mapM_raises_only _ _ ValueError e2
                   (fun a e' => price_to_float_raises _ e') Hfs).
        reflexivity. }
    destruct (mapM (fun r => clean_asking_price (Raw.Asking r)) df) as [aa|e3] eqn:Haa;
      cbn [bind].
    2:{ rewrite (mapM_raises_only _ _ ValueError e3
                   (fun a e' => clean_asking_price_raises _ e') Haa).
        reflexivity. }
    exfalso.
    destruct (mapM_each _ _ _ (get_model_year (Raw.Name r)) Hys) as [y Hy];
      [now apply (in_map (fun r => get_model_year (Raw.Name r)))|].
    destruct (mapM_each _ _ _ r Hfs Hr) as [f Hf].
    destruct (mapM_each _ _ _ r Haa Hr) as [a Ha].
    destruct Hbad as [Hbad | [Hbad | Hbad]]; congruence. }
  split; [|split; [exact Hfail|]].
  - intros _ Hall. unfold main. rewrite Hdf. cbn [bind].
    destruct (mapM_returns clean_model_year
                (map (fun r => get_model_year (Raw.Name r)) df)) as [ys ->].
    { intros y0 Hy0. apply in_map_iff in Hy0. destruct Hy0 as [r [<- Hr]].
      apply (Hall r Hr). }
    destruct (mapM_returns (fun r => price_to_float (Raw.Final r)) df) as [fs ->].
    { intros r Hr. apply (Hall r Hr). }
    destruct (mapM_returns (fun r => clean_asking_price (Raw.Asking r)) df) as [aa ->].
    { intros r Hr. apply (Hall r Hr). }
    cbn [bind]. now eexists _, _.
  - intros r Hr Hfree. apply (Hfail r ValueError Hr). right. left.
    rewrite Hfree. reflexivity.
Qed.

Lemma main_result_witness :
  main Pandas.value_counts_stable
    (Dict.mk ["Fender Stratocaster 1965"] ["1/2/2018"] ["Good"] ["$500"] ["FREE"])
  = Raise ValueError.
Proof.
  assert (H : exists df,
             to_df Pandas.value_counts_stable
               (Dict.mk ["Fender Stratocaster 1965"] ["1/2/2018"] ["Good"] ["$500"]
                  ["FREE"]) = Ok df /\
             exists r, In r df /\ Raw.Final r = "FREE").
  { eexists. split; [vm_compute; reflexivity|].
    eexists. split; [now left | reflexivity]. }
  destruct H as [df [Hdf [r [Hr Hfree]]]].
  exact (proj2 (proj2 (main_result Pandas.value_counts_stable _ df Hdf)) r Hr Hfree).
Defined.

End Frames.

(* ------------------------------------------------------------------ *)
(** ** Indicator columns and colours *)

Module DummyFacts.
Import Pandas Notions FrameFacts Spec CountFacts.

Lemma insert_sorted_NoDup (x : string) (l : list string) :
  ~ In x l -> NoDup l -> NoDup (insert_sorted x l).
Proof.
  induction l as [|y l IH]; cbn [insert_sorted]; intros Hx Hl.
  - constructor; [tauto | constructor].
  - destruct (String.leb x y).
    + constructor; assumption.
    + inversion Hl as [|? ? Hy Hl']; subst. constructor.
      * rewrite insert_sorted_In. intros [E | Hin]; [|tauto].
        apply Hx. left. now symmetry.
      * apply IH; [|assumption]. intros Hin. apply Hx. now right.
Qed.

Lemma insert_sorted_in_order (x : string) (l : list string) :
  in_order l -> in_order (insert_sorted x l).
Proof.
  unfold in_order. induction l as [|y l IH]; cbn [insert_sorted]; intros Hl.
  - constructor; constructor.
  - destruct (String.leb x y) eqn:E.
    + constructor; [assumption|]. constructor. exact E.
    + inversion Hl as [|? ? Hl' Hy]; subst.
      constructor; [now apply IH|].
      destruct l as [|z l]; cbn [insert_sorted].
      * constructor. destruct (String.leb_total x y) as [H | H]; congruence.
      * destruct (String.leb x z).
        -- constructor. destruct (String.leb_total x y) as [H | H]; congruence.
        -- inversion Hy; subst. now constructor.
Qed.

Lemma dummy_columns_sorted (col : list string) :
  NoDup (dummy_columns col) /\ in_order (dummy_columns col).
Proof.
  unfold dummy_columns, sort.
  pose proof (unique_NoDup col) as Hnd.
  induction (unique col) as [|x l IH]; cbn [fold_right].
  - split; constructor.
  - inversion Hnd as [|? ? Hx Hl]; subst. destruct (IH Hl) as [IH1 IH2]. split.
    + apply insert_sorted_NoDup; [|assumption].
      intros Hin. apply Hx. clear - Hin.
      induction l as [|y l IHl]; cbn [fold_right] in Hin; [destruct Hin|].
      apply insert_sorted_In in Hin. destruct Hin as [-> | Hin];
        [now left | right; now apply IHl].
    + now apply insert_sorted_in_order.
Qed.

Lemma dummy_cells_none (columns : list string) (v : string) :
  ~ In v columns -> set_cells (dummy_cells columns v) = 0.
Proof.
  unfold set_cells, dummy_cells.
  induction columns as [|c columns IH]; intros Hv; cbn [map]; [reflexivity|].
  destruct (String.eqb_spec v c) as [-> | Hne].
  - exfalso. apply Hv. now left.
  - rewrite count_occ_cons_neq by discriminate. apply IH.
    intros Hin. apply Hv. now right.
Qed.

Lemma dummy_cells_one (columns : list string) (v : string) :
  NoDup columns -> In v columns -> set_cells (dummy_cells columns v) = 1.
Proof.
  induction columns as [|c columns IH]; intros Hnd Hv; [destruct Hv|].
  inversion Hnd as [|? ? Hc Hnd']; subst.
  unfold set_cells, dummy_cells in *. cbn [map].
  destruct (String.eqb_spec v c) as [-> | Hne].
  - rewrite count_occ_cons_eq by reflexivity. f_equal.
    now apply dummy_cells_none.
  - rewrite count_occ_cons_neq by discriminate. apply IH; [assumption|].
    destruct Hv as [E | Hv]; [congruence | assumption].
Qed.

Lemma dummy_cells_of_column (col : list string) (v : string) :
  In v col ->
  List.length (dummy_cells (dummy_columns col) v) = List.length (dummy_columns col) /\
  set_cells (dummy_cells (dummy_columns col) v) = 1.
Proof.
  intros Hv. split.
  - unfold dummy_cells. apply length_map.
  - apply dummy_cells_one; [apply dummy_columns_sorted | now apply dummy_columns_In].
Qed.

Lemma color_loop_range (cs : list string) (title : string) :
  (color_loop cs title = "NA" /\ forall c, In c cs -> ~ Str.Occurs c title) \/
  (In (color_loop cs title) cs /\ Str.Occurs (color_loop cs title) title).
Proof.
  induction cs as [|c cs IH]; cbn [color_loop].
  - left. split; [reflexivity | intros c []].
  - destruct (Str.contains c title) eqn:Hc.
    + right. split; [now left | now apply StrFacts.contains_spec].
    + apply StrFacts.contains_false in Hc.
      destruct IH as [[E Hnone] | [Hin Hocc]].
      * left. split; [exact E|]. intros c' [<- | Hc']; [exact Hc | now apply Hnone].
      * right. split; [now right | exact Hocc].
Qed.

End DummyFacts.

Section Dummies.
Import Pandas Notions FrameFacts Spec CountFacts DummyFacts.

(** X14. The indicator cells of the feature table are one-hot: in every
    row, each of the three groups (brand, condition, colour) has one cell
    per column of its group and exactly one cell set. *)
Theorem df_format_one_hot (df : list Clean.row) (fr : Feature.row) :
  In fr (Feature.rows (df_format df)) ->
  (List.length (Feature.Brand_dummies fr)
   = List.length (Feature.Brand_columns (df_format df)) /\
   set_cells (Feature.Brand_dummies fr) = 1) /\
  (List.length (Feature.Condition_dummies fr)
   = List.length (Feature.Condition_columns (df_format df)) /\
   set_cells (Feature.Condition_dummies fr) = 1) /\
  (List.length (Feature.Color_dummies fr)
   = List.length (Feature.Color_columns (df_format df)) /\
   set_cells (Feature.Color_dummies fr) = 1).
Proof.
  unfold df_format.
  cbn [Feature.rows Feature.Brand_columns Feature.Condition_columns
       Feature.Color_columns].
  intros Hfr. apply in_map_iff in Hfr. destruct Hfr as [r [<- Hr]].
  cbn [Feature.Brand_dummies Feature.Condition_dummies Feature.Color_dummies].
  split; [|split]; apply dummy_cells_of_column.
  - now apply (in_map Clean.Brand).
  - now apply (in_map Clean.Condition).
  - now apply (in_map Clean.Model_Color).
Qed.

Lemma df_format_one_hot_witness :
  exists fr,
    In fr (Feature.rows (df_format Sample.cleaned)) /\
    set_cells (Feature.Brand_dummies fr) = 1.
Proof.
  assert (H : exists fr, In fr (Feature.rows (df_format Sample.cleaned))).
  { eexists. vm_compute. left. reflexivity. }
  destruct H as [fr H]. exists fr. split; [exact H|].
  exact (proj2 (proj1 (df_format_one_hot Sample.cleaned fr H))).
Defined.

(** X15. The brand columns of the feature table are the brands of the
    rows that pass the filters, each once and in sorted order; likewise
    the condition columns and the colour columns.  A value carried only
    by dropped rows gets no column. *)
Theorem df_format_columns (df : list Clean.row) :
  (NoDup (Feature.Brand_columns (df_format df)) /\
   in_order (Feature.Brand_columns (df_format df)) /\
   forall b, In b (Feature.Brand_columns (df_format df)) <->
             exists r, In r df /\ kept r = true /\ Clean.Brand r = b) /\
  (NoDup (Feature.Condition_columns (df_format df)) /\
   in_order (Feature.Condition_columns (df_format df)) /\
   forall c, In c (Feature.Condition_columns (df_format df)) <->
             exists r, In r df /\ kept r = true /\ Clean.Condition r = c) /\
  (NoDup (Feature.Color_columns (df_format df)) /\
   in_order (Feature.Color_columns (df_format df)) /\
   forall c, In c (Feature.Color_columns (df_format df)) <->
             exists r, In r df /\ kept r = true /\ Clean.Model_Color r = c).
Proof.
  assert (Hcol : forall (g : Clean.row -> string),
            NoDup (dummy_columns (map g (drop_rows df))) /\
            in_order (dummy_columns (map g (drop_rows df))) /\
            forall v, In v (dummy_columns (map g (drop_rows df))) <->
                      exists r, In r df /\ kept r = true /\ g r = v).
  { intros g. split; [apply dummy_columns_sorted|].
    split; [apply dummy_columns_sorted|].
    intros v. rewrite dummy_columns_In, drop_rows_kept, in_map_iff. split.
    - intros [r [E Hr]]. apply filter_In in Hr. exists r. tauto.
    - intros [r [Hr [Hk E]]]. exists r. split; [exact E|].
      apply filter_In. now split. }
  unfold df_format.
  cbn [Feature.Brand_columns Feature.Condition_columns Feature.Color_columns].
  split; [apply (Hcol Clean.Brand)|].
  split; [apply (Hcol Clean.Condition) | apply (Hcol Clean.Model_Color)].
Qed.

(** X16. The colour of a title is always the text [NA] or a name of
    the colour list: [NA] exactly when no name of the list occurs in
    the title, and otherwise a listed name that does occur in it. *)
Theorem get_model_color_range (title : string) :
  (get_model_color title = "NA" /\
   forall c, In c colors -> ~ Str.Occurs c title) \/
  (In (get_model_color title) colors /\
   Str.Occurs (get_model_color title) title /\
   get_model_color title <> "NA").
Proof.
  unfold get_model_color.
  destruct (color_loop_range colors title) as [H | [Hin Hocc]]; [now left|].
  right. split; [exact Hin|]. split; [exact Hocc|].
  intros E. rewrite E in Hin. cbv [colors In] in Hin.
  repeat (destruct Hin as [Hin | Hin]; [discriminate Hin|]). exact Hin.
Qed.

End Dummies.

(* ------------------------------------------------------------------ *)
(** ** Year normalisation: the table and the integer literal *)

Section YearTable.
Import Str StrFacts Spec ScanFacts NumFacts MainFacts.

(** C2. Year normalisation tries the nine decade keywords in table order
    and the first one contained in the raw text decides the year.  An
    extracted text containing none of them is read as an integer literal:
    made of digits only it becomes the number its digits denote, and
    otherwise the integer parser refuses it.  Any string of digits (up to
    the 4300 digits the parser accepts) becomes the number it denotes.  A
    missing extraction stays missing; the title "Fender Stratocaster
    1965" is extracted as "1965" and normalised to the integer 1965. *)
Theorem clean_model_year_table :
  (forall raw pre key year post,
      decade_table = (pre ++ (key, year) :: post)%list ->
      Occurs key raw ->
      (forall k y, In (k, y) pre -> ~ Occurs k raw) ->
      clean_model_year (Some raw) = Ok (Some year)) /\
  (forall title raw,
      get_model_year title = Some raw ->
      (forall k y, In (k, y) decade_table -> ~ Occurs k raw) ->
      (all_digits raw -> clean_model_year (Some raw) = Ok (Some (decimal raw))) /\
      (~ all_digits raw -> clean_model_year (Some raw) = Raise ValueError)) /\
  (forall raw,
      all_digits raw -> raw <> EmptyString -> String.length raw <= 4300 ->
      clean_model_year (Some raw) = Ok (Some (decimal raw))) /\
  clean_model_year None = Ok None /\
  get_model_year "Fender Stratocaster 1965" = Some "1965" /\
  decimal "1965" = 1965%Z /\
  clean_model_year (get_model_year "Fender Stratocaster 1965") = Ok (Some 1965%Z).
Proof.
  split; [|split; [|split; [|repeat split]]].
  - intros raw pre key year post E Hk Hpre.
    rewrite clean_model_year_scan.
    rewrite (find_first _ _ pre (key, year) post E); [reflexivity | |].
    + simpl. now apply contains_spec.
    + intros [k y] Hin. simpl. apply contains_false. now apply (Hpre k y).
  - intros title raw Hget Hnone.
    destruct (get_model_year_shape title raw Hget) as [k Hk]. split.
    + intros Hd. exact (pattern_exact_year k raw Hk Hd).
    + intros Hnd. exact (pattern_parse_error k raw Hk Hnd Hnone).
  - intros raw Hd Hne Hlen. rewrite clean_model_year_scan.
    rewrite find_nowhere.
    + now rewrite (int_of_digits raw Hd Hne Hlen).
    + intros [k y] Hin. cbn [fst]. apply contains_false.
      exact (digits_no_keyword raw k y Hd Hin).
Qed.

Lemma clean_model_year_table_witness :
  clean_model_year (Some "1950s") = Ok (Some 1955%Z).
Proof.
  apply (proj1 clean_model_year_table "1950s"
           [("00s", 2005%Z); ("10s", 2015%Z); ("30s", 1935%Z)] "50s" 1955%Z
           [("60s", 1965%Z); ("'69", 1969%Z); ("70s", 1975%Z); ("80s", 1985%Z);
            ("90s", 1995%Z)]).
  - reflexivity.
  - exists "19", "". reflexivity.
  - intros k y Hin. apply contains_false.
    simpl in Hin. destruct Hin as [H | [H | [H | []]]]; injection H as <- _;
      reflexivity.
Defined.


End YearTable.

(* ------------------------------------------------------------------ *)
(** ** The twenty most frequent brands *)

Module BrandFacts.
Import Str Spec Notions FrameFacts TokenFacts ToDfFacts.

Lemma branded_rows_tokens (d : Dict.t) (rows : list Raw.row) :
  branded_rows d = Ok rows ->
  map Raw.Name rows = Dict.Name d /\
  forall r, In r rows -> first_token_of (Raw.Name r) (Raw.Brand r).
Proof.
  unfold branded_rows, Pandas.from_dict. intros H.
  apply bind_Ok in H. destruct H as [rows0 [H0 Hb]].
  pose proof (mapM_Ok _ _ _ Hb) as Hall. split.
  - rewrite <- (from_dict_rows_names _ _ _ _ _ _ _ H0).
    clear H0 Hb. induction Hall as [|r r' l l' Hr _ IH]; [reflexivity|].
    cbn [map]. f_equal; [|exact IH].
    now destruct (add_brand_Ok r r' Hr) as [_ [_ [_ [En _]]]].
  - intros r Hr. destruct (Forall2_In_r _ _ _ r Hall Hr) as [r0 [_ Hadd]].
    apply first_token_Ok. now apply (add_brand_Ok r0 r).
Qed.

End BrandFacts.

Section TopTwenty.
Import Pandas Spec Notions FrameFacts CountFacts TokenFacts ToDfFacts MainFacts BrandFacts.

Variable value_counts : list string -> list string.
Hypothesis value_counts_ok : value_counts_spec value_counts.

(** C8. The brand of every scraped row is the first
    whitespace-delimited token of its title, in the frame the
    frequencies are counted on and in the full cleaned table alike.
    Whatever order [value_counts] gives to brands of equal count:
    [to_df] keeps exactly the rows whose brand stands in the first 20
    places of the frequency order, so a brand ranked 21st or lower labels
    no row of the full cleaned table and no brand column of the feature
    table, whose rows all come from the full table.  Every kept brand has
    fewer than 20 brands strictly more frequent among the scraped rows,
    and a brand with at least 20 brands strictly more frequent is in
    neither table. *)
Theorem top_twenty_brand_filter (d : Dict.t) (full : list Clean.row)
  (feat : Feature.table) :
  main value_counts d = Ok (full, feat) ->
  exists rows df,
    branded_rows d = Ok rows /\
    to_df value_counts d = Ok df /\
    map Raw.Name rows = Dict.Name d /\
    (forall r, In r rows -> first_token_of (Raw.Name r) (Raw.Brand r)) /\
    (forall r, In r full -> first_token_of (Clean.Name r) (Clean.Brand r)) /\
    let top := firstn 20 (value_counts (map Raw.Brand rows)) in
    (forall r, In r df <-> In r rows /\ In (Raw.Brand r) top) /\
    (forall b, ~ In b top ->
               ~ In b (map Raw.Brand df) /\
               ~ In b (map Clean.Brand full) /\
               ~ In b (Feature.Brand_columns feat)) /\
    (forall r, In r full ->
               among_most_frequent 20 (Clean.Brand r) (map Raw.Brand rows)) /\
    (forall b, ranked_below 20 b (map Raw.Brand rows) ->
               ~ In b (map Raw.Brand df) /\
               ~ In b (map Clean.Brand full) /\
               ~ In b (Feature.Brand_columns feat)) /\
    (forall i, In i (map Feature.index (Feature.rows feat)) ->
               In i (map Clean.index full)).
Proof.
  intros Hmain.
  destruct (main_frames value_counts d full feat Hmain) as [df [Hdf [Hi [Hb ->]]]].
  destruct (to_df_mask value_counts d df Hdf) as [rows [Hrows Hmask]].
  exists rows, df. split; [exact Hrows|]. split; [exact Hdf|].
  destruct (branded_rows_tokens d rows Hrows) as [Hnames Htok].
  split; [exact Hnames|]. split; [exact Htok|].
  set (top := firstn 20 (value_counts (map Raw.Brand rows))) in *. cbv zeta.
  assert (Hkept : forall r, In r df <-> In r rows /\ In (Raw.Brand r) top).
  { intros r. rewrite Hmask, filter_In, in_list_In. reflexivity. }
  split.
  { intros c Hc.
    destruct (main_derived value_counts d full (df_format full) Hmain)
      as [df' [Hdf' [Hder _]]].
    assert (df' = df) by congruence. subst df'.
    destruct (Forall2_In_r _ _ _ c Hder Hc) as [r [Hr [_ [En [_ [_ [Eb _]]]]]]].
    rewrite En, Eb. apply Htok. now apply Hkept. }
  assert (Htop : forall b, In b (map Clean.Brand full) -> In b top).
  { intros b Hin. rewrite Hb in Hin. apply in_map_iff in Hin.
    destruct Hin as [r [<- Hr]]. now apply Hkept. }
  assert (Hcol : forall b, In b (Feature.Brand_columns (df_format full)) ->
                           In b (map Clean.Brand full)).
  { intros b. unfold df_format. cbn [Feature.Brand_columns].
    rewrite dummy_columns_In, drop_rows_kept. intros Hin.
    apply in_map_iff in Hin. destruct Hin as [r [E Hr]].
    apply filter_In in Hr. apply in_map_iff. exists r. tauto. }
  assert (Habsent : forall b, ~ In b top ->
                      ~ In b (map Raw.Brand df) /\
                      ~ In b (map Clean.Brand full) /\
                      ~ In b (Feature.Brand_columns (df_format full))).
  { intros b Hb'. rewrite <- Hb. repeat split; intros Hin; apply Hb'; auto. }
  split; [exact Hkept|]. split; [exact Habsent|]. split; [|split].
  - intros r Hr. apply (first_places value_counts 20); [exact value_counts_ok|].
    apply Htop. now apply in_map.
  - intros b Hlow. apply Habsent. intros Hin.
    apply (ranked_below_not_among 20 b (map Raw.Brand rows) Hlow).
    now apply (first_places value_counts 20).
  - intros i Hin. rewrite (proj1 (df_format_rows full)) in Hin.
    apply in_map_iff in Hin. destruct Hin as [r [<- Hr]].
    apply filter_In in Hr. apply in_map. tauto.
Qed.

End TopTwenty.

Section TopTwentySample.
Import Pandas Spec FrameFacts CountFacts.

Lemma top_twenty_brand_filter_witness :
  ~ In "Zenith" (map Clean.Brand (fst Sample.market_frames)) /\
  ~ In "Zenith" (Feature.Brand_columns (snd Sample.market_frames)).
Proof.
  destruct (top_twenty_brand_filter value_counts_stable value_counts_stable_spec
              Sample.market (fst Sample.market_frames) (snd Sample.market_frames))
    as [rows [df [Hrows [_ [_ [_ [_ [_ [_ [_ [Hlow _]]]]]]]]]]].
  - vm_compute. reflexivity.
  - assert (Hbrands : map Raw.Brand rows
                      = (Sample.twenty ++ "Zenith" :: Sample.twenty)%list).
    { assert (E : option_map (map Raw.Brand)
                    (match branded_rows Sample.market with
                     | Ok x => Some x
                     | Raise _ => None
                     end)
                  = Some (Sample.twenty ++ "Zenith" :: Sample.twenty)%list)
        by (vm_compute; reflexivity).
      rewrite Hrows in E. simpl in E. now injection E. }
    destruct (Hlow "Zenith") as [_ [Hfull Hfeat]]; [|now split].
    exists Sample.twenty. rewrite Hbrands. split; [|split].
    + unfold Sample.twenty.
      repeat (constructor; [simpl; intuition discriminate|]). constructor.
    + reflexivity.
    + intros b' Hb'. unfold Sample.twenty in Hb'. simpl in Hb'.
      repeat (destruct Hb' as [<- | Hb']; [vm_compute; lia|]).
      destruct Hb'.
Defined.

End TopTwentySample.
